(** * Poplu City: the simulation engine, embedded and verified

    A shallow embedding of the city simulation of [src/App.tsx] (grid,
    economic tick, tile interaction, day/night clock), of the constants
    table ([constants]) and of the three agent movement systems of
    [src/components/IsoMap.tsx] (vehicles, train, pedestrians).

    Conventions of the embedding.
    - JavaScript numbers that hold integers (coordinates, money, population,
      prices, counters) are [Z]; the embedding is exact as long as the values
      stay below 2^53 in absolute value.
    - JavaScript numbers that hold fractions (time of day, progress, speed,
      frame delta) are exact rationals [Q]; rounding of IEEE doubles and of
      [Float32Array] cells is not modelled.
    - [Math.random()] is an explicit argument: a draw [r : nat] stands for
      [Math.floor(Math.random() * n)] through [r mod n], which ranges over
      exactly the indices [0 .. n-1].
    - Reading a property of [undefined] (a [TypeError] in JavaScript) is
      [None] in the [option] monad.
    - React state and the refs that mirror it ([gridRef], [statsRef]) are one
      record: every timer firing and every click runs to completion on the
      current state. *)

From Stdlib Require Import ZArith QArith Qround Qabs Lia Lqa List Bool String.
From stdpp Require Import base option list sorting.

#[local] Open Scope Z_scope.

(** ** Types ([types.ts]) *)

(** Modelled from the spec: the enumeration [BuildingType] of [types.ts],
    which is not among the sources; its members are the keys of the
    [BUILDINGS] table of [constants]. *)
Inductive BuildingType :=
| None_ | Road | Residential | Commercial | Industrial | Park
| Rail | TrainStation | Bridge | Land.

#[global] Instance BuildingType_eq_dec : EqDecision BuildingType.
Proof. solve_decision. Defined.

(** Modelled from the spec: [TileData] of [types.ts], with the fields that
    [createInitialGrid] writes. The coordinates are called [tileX], [tileY]
    ([x] and [y] in the source). *)
Record TileData := mkTile {
  tileX : Z;
  tileY : Z;
  buildingType : BuildingType;
  owned : bool;
  isWater : bool;
  isRail : bool;
  landPrice : Z
}.

Abbreviation Grid := (list (list TileData)).

Record CityStats := mkStats {
  money : Z;
  population : Z;
  day : Z
}.

Inductive NewsType := positive | neutral | negative.

(** The texts of the news items the engine writes; a template string keeps
    its number (or building) as an argument. [MsgExternal] is a text that
    came back from the news service. *)
Inductive Message :=
| MsgWelcome
| MsgWaterway
| MsgLandSold (sellPrice : Z)
| MsgClearFirst
| MsgAcquired (cost : Z)
| MsgPlotCosts (cost : Z)
| MsgNotAdjacent
| MsgNotOwned
| MsgBuildBridge
| MsgBridgeOnWater
| MsgDemolition
| MsgTreasury (tool : BuildingType)
| MsgExternal (text : string).

(** A news item without its [id] (a time stamp). *)
Record NewsItem := mkNews {
  newsText : Message;
  newsType : NewsType
}.

Record BuildingConfig := mkConfig {
  cfgType : BuildingType;
  cost : Z;
  name : string;
  popGen : Z;
  incomeGen : Z
}.

(** ** Constants ([constants]) *)

Definition GRID_SIZE : Z := 25.
Definition TICK_RATE_MS : Z := 2000.
Definition INITIAL_MONEY : Z := 50000.
Definition LAND_COST : Z := 500.
Definition LAND_SELL : Z := 250.

Definition BUILDINGS (t : BuildingType) : BuildingConfig :=
  match t with
  | None_ => mkConfig None_ 0 "Bulldoze" 0 0
  | Road => mkConfig Road 10 "Road" 0 0
  | Residential => mkConfig Residential 100 "House" 5 0
  | Commercial => mkConfig Commercial 200 "Shop" 0 15
  | Industrial => mkConfig Industrial 400 "Factory" 0 40
  | Park => mkConfig Park 50 "Park" 1 0
  | Rail => mkConfig Rail 150 "Rail" 0 0
  | TrainStation => mkConfig TrainStation 5000 "Station" 10 200
  | Bridge => mkConfig Bridge 1000 "Bridge" 0 0
  | Land => mkConfig Land LAND_COST "Real Estate" 0 0
  end.

(** ** The city state ([App]) *)

Record State := mkState {
  gameStarted : bool;
  grid : Grid;
  stats : CityStats;
  selectedTool : BuildingType;
  timeOfDay : Q;
  newsFeed : list NewsItem;
  tickCounter : Z
}.

Definition setGrid (g : Grid) (s : State) : State :=
  mkState (gameStarted s) g (stats s) (selectedTool s) (timeOfDay s)
          (newsFeed s) (tickCounter s).

Definition setStats (f : CityStats -> CityStats) (s : State) : State :=
  mkState (gameStarted s) (grid s) (f (stats s)) (selectedTool s)
          (timeOfDay s) (newsFeed s) (tickCounter s).

Definition setSelectedTool (t : BuildingType) (s : State) : State :=
  mkState (gameStarted s) (grid s) (stats s) t (timeOfDay s)
          (newsFeed s) (tickCounter s).

Definition setTimeOfDay (f : Q -> Q) (s : State) : State :=
  mkState (gameStarted s) (grid s) (stats s) (selectedTool s)
          (f (timeOfDay s)) (newsFeed s) (tickCounter s).

Definition setNewsFeed (f : list NewsItem -> list NewsItem) (s : State) : State :=
  mkState (gameStarted s) (grid s) (stats s) (selectedTool s) (timeOfDay s)
          (f (newsFeed s)) (tickCounter s).

Definition setGameStarted (b : bool) (s : State) : State :=
  mkState b (grid s) (stats s) (selectedTool s) (timeOfDay s)
          (newsFeed s) (tickCounter s).

Definition setTickCounter (n : Z) (s : State) : State :=
  mkState (gameStarted s) (grid s) (stats s) (selectedTool s) (timeOfDay s)
          (newsFeed s) n.

(** [prev.slice(-n)]: the last [n] elements. *)
Definition sliceLast {A} (n : nat) (l : list A) : list A :=
  drop (length l - n)%nat l.

(** [addNewsItem]: [setNewsFeed(prev => [...prev.slice(-12), item])]. *)
Definition addNewsItem (item : NewsItem) (s : State) : State :=
  setNewsFeed (fun prev => sliceLast 12 prev ++ [item]) s.

(** ** [createInitialGrid]

    [riverY y] stands for [Math.floor(center + Math.sin(y * 0.4) * 2.5)] and
    [randomVariance x y] for the draw [Math.floor(Math.random() * 5000)] made
    for the tile at [(x, y)]. [Math.floor(dist * 500)] with
    [dist = sqrt(dx^2 + dy^2)] is the integer square root of
    [250000 * (dx^2 + dy^2)]. *)

Definition center : Z := GRID_SIZE / 2.
Definition ownedRadius : Z := 2.

Definition initialTile (riverY : Z -> Z) (randomVariance : Z -> Z -> Z)
    (y x : Z) : TileData :=
  let isOwned := (Z.abs (x - center) <=? ownedRadius)
                 && (Z.abs (y - center) <=? ownedRadius) in
  let isRiver := 2 * Z.abs (x - riverY y) <? 3 in
  let basePrice := 5000 in
  let plotPrice := basePrice + randomVariance x y
                   + Z.sqrt (250000 * ((x - center) ^ 2 + (y - center) ^ 2)) in
  mkTile x y None_ isOwned isRiver false plotPrice.

(** The loop indices [0 .. GRID_SIZE - 1]. *)
Definition indices : list Z := seqZ 0 GRID_SIZE.

Definition createInitialGrid (riverY : Z -> Z) (randomVariance : Z -> Z -> Z)
    : Grid :=
  (fun y => (fun x => initialTile riverY randomVariance y x) <$> indices)
    <$> indices.

Definition initialState (riverY : Z -> Z) (randomVariance : Z -> Z -> Z)
    : State :=
  mkState false (createInitialGrid riverY randomVariance)
          (mkStats INITIAL_MONEY 0 1) Road 0%Q [] 0.

(** The values of [Math.floor(12 + Math.sin(y * 0.4) * 2.5)] for
    [y = 0 .. 24], used where a concrete terrain is needed. *)
Definition riverTable : list Z :=
  [12; 12; 13; 14; 14; 14; 13; 12; 11; 10; 10; 9; 9; 9; 10; 11; 12; 13; 13;
   14; 14; 14; 13; 12; 11].

Definition sineRiver (y : Z) : Z := nth (Z.to_nat y) riverTable 12.

Definition noVariance (x y : Z) : Z := 0.

(** ** The economic tick ([setInterval(..., TICK_RATE_MS)]) *)

Record TickScan := mkScan {
  dailyIncome : Z;
  dailyPopGrowth : Z;
  buildingCounts : BuildingType -> Z
}.

Definition emptyScan : TickScan := mkScan 0 0 (fun _ => 0).

(** The body of [gridRef.current.flat().forEach(tile => ...)]. *)
Definition scanTile (acc : TickScan) (tile : TileData) : TickScan :=
  if negb (bool_decide (buildingType tile = None_)) && owned tile then
    let config := BUILDINGS (buildingType tile) in
    if negb (bool_decide (cfgType config = Land)) then
      mkScan (dailyIncome acc + incomeGen config)
             (dailyPopGrowth acc + popGen config)
             (fun t => if bool_decide (t = buildingType tile)
                       then buildingCounts acc t + 1
                       else buildingCounts acc t)
    else acc
  else acc.

Definition scanGrid (g : Grid) : TickScan :=
  fold_left scanTile (concat g) emptyScan.

Definition resCount (g : Grid) : Z := buildingCounts (scanGrid g) Residential.

(** The updater passed to [setStats] by the tick. *)
Definition tickStats (scan : TickScan) (isNewDay : bool) (prev : CityStats)
    : CityStats :=
  let resCount := buildingCounts scan Residential in
  let maxPop := resCount * 50 in
  let newPop := population prev + dailyPopGrowth scan in
  let newPop := if newPop >? maxPop then maxPop else newPop in
  let newPop := if (resCount =? 0) && (population prev >? 0)
                then Z.max 0 (population prev - 5) else newPop in
  mkStats (money prev + dailyIncome scan) newPop
          (if isNewDay then day prev + 1 else day prev).

Definition economicTick (s : State) : State :=
  let n := tickCounter s + 1 in
  let isNewDay := n mod 10 =? 0 in
  setStats (tickStats (scanGrid (grid s)) isNewDay) (setTickCounter n s).

(** ** The day/night timer ([setInterval(..., 200)]) *)

(** [v % 1] on a fraction: [v] minus its integer part rounded towards zero,
    so that the remainder keeps the sign of [v]. *)
Definition Qtrunc (v : Q) : Z := Z.quot (Qnum v) (Zpos (Qden v)).

Definition mod1 (v : Q) : Q := (v - inject_Z (Qtrunc v))%Q.

Definition dayStep (prev : Q) : Q := mod1 (prev + (1 # 1000))%Q.

Definition DAY_INTERVAL_MS : Z := 200.

(** ** Tile interaction ([handleTileClick]) *)

(** [currentGrid[y][x]]; [None] when the row or the tile is [undefined] (the
    next property read throws). *)
Definition getTile (g : Grid) (x y : Z) : option TileData :=
  row ← g !! Z.to_nat y; row !! Z.to_nat x.

(** [newGrid = currentGrid.map(row => [...row]); newGrid[y][x] = t]. *)
Definition setTile (g : Grid) (x y : Z) (t : TileData) : Grid :=
  alter (fun row => <[Z.to_nat x := t]> row) (Z.to_nat y) g.

(** [v || d] on numbers. *)
Definition orDefault (v d : Z) : Z := if v =? 0 then d else v.

(** [cond && currentGrid[y][x].owned]: the tile is read only when [cond]
    holds. *)
Definition guardedOwned (cond : bool) (g : Grid) (x y : Z) : option bool :=
  if cond then owned <$> getTile g x y else Some false.

(** [a || b] where [b] is evaluated only when [a] is false. *)
Definition orElse (a : option bool) (b : option bool) : option bool :=
  match a with
  | Some true => Some true
  | Some false => b
  | None => None
  end.

Definition hasOwnedNeighbor (g : Grid) (x y : Z) : option bool :=
  orElse (guardedOwned (x >? 0) g (x - 1) y)
    (orElse (guardedOwned (x <? GRID_SIZE - 1) g (x + 1) y)
      (orElse (guardedOwned (y >? 0) g x (y - 1))
              (guardedOwned (y <? GRID_SIZE - 1) g x (y + 1)))).

Definition withOwned (b : bool) (t : TileData) : TileData :=
  mkTile (tileX t) (tileY t) (buildingType t) b (isWater t) (isRail t)
         (landPrice t).

Definition withBuilding (b : BuildingType) (t : TileData) : TileData :=
  mkTile (tileX t) (tileY t) b (owned t) (isWater t) (isRail t) (landPrice t).

Definition withBuildingRail (b : BuildingType) (r : bool) (t : TileData)
    : TileData :=
  mkTile (tileX t) (tileY t) b (owned t) (isWater t) r (landPrice t).

Definition addMoney (d : Z) (prev : CityStats) : CityStats :=
  mkStats (money prev + d) (population prev) (day prev).

Definition demolishCost : Z := 5.

(** The Land tool branch. *)
Definition landTool (x y : Z) (currentTile : TileData) (s : State)
    : option State :=
  let currentGrid := grid s in
  let currentStats := stats s in
  if isWater currentTile then
    Some (addNewsItem (mkNews MsgWaterway neutral) s)
  else if owned currentTile then
    if bool_decide (buildingType currentTile = None_) then
      let sellPrice := orDefault (landPrice currentTile) LAND_COST / 2 in
      Some (addNewsItem (mkNews (MsgLandSold sellPrice) neutral)
             (setStats (addMoney sellPrice)
               (setGrid (setTile currentGrid x y (withOwned false currentTile))
                        s)))
    else Some (addNewsItem (mkNews MsgClearFirst negative) s)
  else
    let cost := orDefault (landPrice currentTile) LAND_COST in
    adjacent ← hasOwnedNeighbor currentGrid x y;
    if adjacent : bool then
      if money currentStats >=? cost then
        Some (addNewsItem (mkNews (MsgAcquired cost) positive)
               (setStats (addMoney (- cost))
                 (setGrid (setTile currentGrid x y (withOwned true currentTile))
                          s)))
      else Some (addNewsItem (mkNews (MsgPlotCosts cost) negative) s)
    else Some (addNewsItem (mkNews MsgNotAdjacent neutral) s).

(** The building tools: ownership, terrain, bulldoze, placement. *)
Definition buildTool (x y : Z) (tool : BuildingType) (currentTile : TileData)
    (s : State) : State :=
  let currentGrid := grid s in
  let currentStats := stats s in
  if negb (owned currentTile) then
    addNewsItem (mkNews MsgNotOwned negative) s
  else if isWater currentTile
          && negb (bool_decide (tool = Rail))
          && negb (bool_decide (tool = Bridge)) then
    addNewsItem (mkNews MsgBuildBridge negative) s
  else if negb (isWater currentTile) && bool_decide (tool = Bridge) then
    addNewsItem (mkNews MsgBridgeOnWater negative) s
  else
    let buildingConfig := BUILDINGS tool in
    if bool_decide (tool = None_) then
      if negb (bool_decide (buildingType currentTile = None_)) then
        if money currentStats >=? demolishCost then
          setStats (addMoney (- demolishCost))
            (setGrid (setTile currentGrid x y
                        (withBuildingRail None_ false currentTile)) s)
        else addNewsItem (mkNews MsgDemolition negative) s
      else s
    else if bool_decide (buildingType currentTile = None_)
            || (bool_decide (tool = Rail) && isWater currentTile)
            || (bool_decide (tool = Bridge) && isWater currentTile) then
      if money currentStats >=? cost buildingConfig then
        let placed := if bool_decide (tool = Rail)
                      then withBuildingRail Rail true currentTile
                      else withBuilding tool currentTile in
        setGrid (setTile currentGrid x y placed)
          (setStats (addMoney (- cost buildingConfig)) s)
      else addNewsItem (mkNews (MsgTreasury tool) negative) s
    else s.

Definition handleTileClick (x y : Z) (s : State) : option State :=
  if negb (gameStarted s) then Some s
  else
    let tool := selectedTool s in
    if (x <? 0) || (x >=? GRID_SIZE) || (y <? 0) || (y >=? GRID_SIZE)
    then Some s
    else
      currentTile ← getTile (grid s) x y;
      if bool_decide (tool = Land) then landTool x y currentTile s
      else Some (buildTool x y tool currentTile s).

(** [applyClick(x, y, tool)] of the specification: select the tool, then
    click. *)
Definition applyClick (x y : Z) (tool : BuildingType) (s : State)
    : option State :=
  handleTileClick x y (setSelectedTool tool s).

(** ** Events and runs *)

Inductive Event :=
| EStart
| EDayTimer
| ETick
| ESelectTool (tool : BuildingType)
| EClick (x y : Z)
| ENews (item : NewsItem).

(** The timers exist and the tool bar is shown only while the game is
    started; the start button, only before. *)
Definition step (e : Event) (s : State) : option State :=
  match e with
  | EStart =>
      if gameStarted s then Some s
      else Some (addNewsItem (mkNews MsgWelcome positive)
                             (setGameStarted true s))
  | EDayTimer =>
      Some (if gameStarted s then setTimeOfDay dayStep s else s)
  | ETick => Some (if gameStarted s then economicTick s else s)
  | ESelectTool tool =>
      Some (if gameStarted s then setSelectedTool tool s else s)
  | EClick x y => handleTileClick x y s
  | ENews item => Some (if gameStarted s then addNewsItem item s else s)
  end.

Fixpoint run (es : list Event) (s : State) : option State :=
  match es with
  | [] => Some s
  | e :: es' => s' ← step e s; run es' s'
  end.

(** A state reached by a list of events, for use at concrete inputs (where
    the run does not throw). *)
Definition stateAfter (es : list Event) (s : State) : State :=
  default s (run es s).

(** The initial city on the terrain of the source, every random price
    variance drawn as 0. *)
Definition freshCity : State := initialState sineRiver noVariance.

(** The same city once the start button has been pressed. *)
Definition startedCity : State := stateAfter [EStart] freshCity.

(** ** Predicates used in the statements *)

Definition scanNonneg (acc : TickScan) : Prop :=
  0 <= dailyIncome acc /\ 0 <= dailyPopGrowth acc
  /\ forall t, 0 <= buildingCounts acc t.

Definition inBounds (x y : Z) : Prop :=
  0 <= x < GRID_SIZE /\ 0 <= y < GRID_SIZE.

(** The grid has [GRID_SIZE] rows of [GRID_SIZE] tiles. *)
Definition wfGrid (g : Grid) : Prop :=
  length g = Z.to_nat GRID_SIZE
  /\ Forall (fun row : list TileData => length row = Z.to_nat GRID_SIZE) g.

Definition gridForall (P : TileData -> Prop) (g : Grid) : Prop :=
  Forall (Forall P) g.

(** Some orthogonal neighbour of [(x, y)] inside the grid is owned. *)
Definition ownedNeighbor (g : Grid) (x y : Z) : Prop :=
  exists x' y' t', inBounds x' y'
    /\ Z.abs (x' - x) + Z.abs (y' - y) = 1
    /\ getTile g x' y' = Some t' /\ owned t' = true.

(** What the engine maintains in every run from the initial state. *)
Definition cityInv (s : State) : Prop :=
  wfGrid (grid s)
  /\ gridForall (fun t => 1 <= landPrice t) (grid s)
  /\ 0 <= money (stats s).

(** The consistency of the two rail fields that the engine does maintain: a
    tile flagged [isRail] holds a Rail, or a Bridge laid over it on water. *)
Definition railShape (t : TileData) : Prop :=
  isRail t = true ->
  buildingType t = Rail \/ (buildingType t = Bridge /\ isWater t = true).

(** * The agent movement systems ([IsoMap.tsx])

    Each system is a React component: a memoised tile list computed from the
    grid, a render result ([None] for [return null], otherwise the mesh or
    group it mounts, which sets the component's ref), an effect that seeds the
    agents, and a frame callback.  [Math.sqrt] is the argument [sqrt]. *)

(** The [{x, y}] objects pushed on the tile lists. *)
Record Pos := mkPos {
  posX : Z;
  posY : Z
}.

#[global] Instance Pos_eq_dec : EqDecision Pos.
Proof. solve_decision. Defined.

Definition tilePos (t : TileData) : Pos := mkPos (tileX t) (tileY t).

(** [grid.forEach(row => row.forEach(tile => { if (keep tile) push }))]. *)
Definition collectTiles (keep : TileData -> bool) (g : Grid) : list Pos :=
  tilePos <$> filter (fun t => keep t) (concat g).

(** What a frame callback did: returned at once, ran to its end (new agent
    state and what was drawn), or threw (agent state as written so far). *)
Inductive FrameResult (S V : Type) :=
| Skipped
| Ran (state : S) (view : V)
| Threw (state : S).
Arguments Skipped {S V}.
Arguments Ran {S V} state view.
Arguments Threw {S V} state.

Definition WORLD_OFFSET : Q := inject_Z GRID_SIZE / 2 - (1 # 2).

(** [gridToWorld(x, y)], without the constant height. *)
Definition gridToWorld (x y : Q) : Q * Q := (x - WORLD_OFFSET, y - WORLD_OFFSET)%Q.

(** [MathUtils.lerp(x, y, t)]. *)
Definition lerp (x y t : Q) : Q := ((1 - t) * x + t * y)%Q.

(** [a % b] on fractions, for [b > 0]: the remainder has the sign of [a]. *)
Definition Qrem (a b : Q) : Q := (a - b * inject_Z (Qtrunc (a / b)))%Q.

Definition Qgtb (a b : Q) : bool := negb (Qle_bool a b).
Definition Qgeb (a b : Q) : bool := Qle_bool b a.
Definition Qltb (a b : Q) : bool := negb (Qle_bool b a).

(** ** Vehicles ([TrafficSystem]) *)

Definition isRoadTile (t : TileData) : bool :=
  bool_decide (buildingType t = Road) || bool_decide (buildingType t = Bridge).

Definition roadTiles (g : Grid) : list Pos := collectTiles isRoadTile g.

Definition carCount (roads : list Pos) : nat := Nat.min (length roads) 30.

(** The six cells a car has in [carsState]. *)
Record Car := mkCar {
  curX : Z;
  curY : Z;
  tarX : Z;
  tarY : Z;
  progress : Q;
  speed : Q
}.

(** [if (roadTiles.length < 2) return null; return <instancedMesh ... />]:
    the mesh and its instance count. *)
Definition trafficRender (roads : list Pos) : option nat :=
  if (length roads <? 2)%nat then None else Some (carCount roads).

(** The effect: [startIdx i] stands for
    [Math.floor(Math.random() * roadTiles.length)] and [startSpeed i] for
    [getRandomRange(0.01, 0.03)] of car [i]. [None]: [startNode] is
    undefined. The result is the new [carsState]; with fewer than 2 road
    tiles the old one stays. *)
Definition seedCar (roads : list Pos) (idx : nat) (v : Q) : option Car :=
  startNode ← roads !! (idx mod length roads)%nat;
  Some (mkCar (posX startNode) (posY startNode) (posX startNode)
              (posY startNode) 1 v).

Definition trafficEffect (roads : list Pos) (startIdx : nat -> nat)
    (startSpeed : nat -> Q) (old : list Car) : option (list Car) :=
  if (length roads <? 2)%nat then Some old
  else mapM (fun i => seedCar roads (startIdx i) (startSpeed i))
            (seq 0 (carCount roads)).

(** The filter of the neighbour search. *)
Definition isNeighbor (cx cy : Z) (t : Pos) : bool :=
  ((Z.abs (posX t - cx) =? 1) && (posY t =? cy))
  || ((Z.abs (posY t - cy) =? 1) && (posX t =? cx)).

(** [Math.abs(n.x - px) > 0.1 || Math.abs(n.y - py) > 0.1], in tenths. *)
Definition awayFrom (px py : Z) (n : Pos) : bool :=
  (10 * Z.abs (posX n - px) >? 1) || (10 * Z.abs (posY n - py) >? 1).

(** One car in one frame; [r] stands for the [Math.random()] of its target
    choice. [None]: the chosen tile is undefined. *)
Definition stepCar (roads : list Pos) (c : Car) (r : nat) : option Car :=
  let progress' := (progress c + speed c)%Q in
  if Qgeb progress' 1 then
    let cx := tarX c in
    let cy := tarY c in
    let neighbors := filter (fun t => isNeighbor cx cy t) roads in
    if (0 <? length neighbors)%nat then
      let valid := if (1 <? length neighbors)%nat
                   then filter (fun n => awayFrom (curX c) (curY c) n)
                               neighbors
                   else neighbors in
      next ← (if (0 <? length valid)%nat
              then valid !! (r mod length valid)%nat
              else neighbors !! 0%nat);
      Some (mkCar cx cy (posX next) (posY next) 0 (speed c))
    else
      rnd ← roads !! (r mod length roads)%nat;
      Some (mkCar (posX rnd) (posY rnd) (posX rnd) (posY rnd) 0 (speed c))
  else Some (mkCar (curX c) (curY c) (tarX c) (tarY c) progress' (speed c)).

(** What is drawn for a car: the interpolated grid position, the lateral
    offset, the world position and the travel vector whose [atan2] is the
    heading. *)
Definition carGridPos (c : Car) : Q * Q :=
  (lerp (inject_Z (curX c)) (inject_Z (tarX c)) (progress c),
   lerp (inject_Z (curY c)) (inject_Z (tarY c)) (progress c)).

Definition orOne (v : Q) : Q := if Qeq_bool v 0 then 1%Q else v.

Definition carOffset (sqrt : Q -> Q) (c : Car) : Q * Q :=
  let dx := inject_Z (tarX c - curX c) in
  let dy := inject_Z (tarY c - curY c) in
  let offsetAmt := (15 # 100)%Q in
  let len := orOne (sqrt (dx * dx + dy * dy)%Q) in
  ((- dy / len) * offsetAmt, (dx / len) * offsetAmt)%Q.

Record CarPose := mkCarPose {
  carWorld : Q * Q;
  carHeading : Z * Z
}.

(** The grid position handed to [gridToWorld]: [(gx + offX, gy + offY)]. *)
Definition carDrawnAt (sqrt : Q -> Q) (c : Car) : Q * Q :=
  let '(gx, gy) := carGridPos c in
  let '(offX, offY) := carOffset sqrt c in
  (gx + offX, gy + offY)%Q.

Definition carPose (sqrt : Q -> Q) (c : Car) : CarPose :=
  let '(x, y) := carDrawnAt sqrt c in
  mkCarPose (gridToWorld x y) (tarX c - curX c, tarY c - curY c).

(** The loop [for (let i = 0; i < count; i++)] of a frame callback, from
    agent [i] on: [body i a] is the new state of agent [i] and what is drawn
    for it, or [None] when it throws. *)
Fixpoint frameLoop {A V : Type} (body : nat -> A -> option (A * V))
    (i : nat) (agents : list A) : FrameResult (list A) (list V) :=
  match agents with
  | [] => Ran [] []
  | a :: rest =>
      match body i a with
      | None => Threw (a :: rest)
      | Some (a', v) =>
          match frameLoop body (S i) rest with
          | Ran l vs => Ran (a' :: l) (v :: vs)
          | Threw l => Threw (a' :: l)
          | Skipped => Skipped
          end
      end
  end.

Definition carBody (sqrt : Q -> Q) (roads : list Pos) (rnd : nat -> nat)
    (i : nat) (c : Car) : option (Car * CarPose) :=
  c' ← stepCar roads c (rnd i); Some (c', carPose sqrt c').

(** The frame callback; [mounted] is [carsRef.current] being set. The
    effect leaves [carCount] cars in [carsState] whenever there are at least
    two road tiles, so the loop visits every car. *)
Definition trafficFrame (sqrt : Q -> Q) (mounted : bool) (roads : list Pos)
    (cars : list Car) (rnd : nat -> nat)
    : FrameResult (list Car) (list CarPose) :=
  if negb mounted || (length roads <? 2)%nat || (length cars =? 0)%nat
  then Skipped
  else
    match frameLoop (carBody sqrt roads rnd) 0 (take (carCount roads) cars)
    with
    | Ran cs ps => Ran (cs ++ drop (carCount roads) cars) ps
    | Threw cs => Threw (cs ++ drop (carCount roads) cars)
    | Skipped => Skipped
    end.

(** [n] frames on an unchanged grid; [rnd k] are the draws of frame [k]. A
    frame that returns at once leaves the cars as they are; a throw stops
    the run. *)
Fixpoint trafficFrames (sqrt : Q -> Q) (mounted : bool) (roads : list Pos)
    (rnd : nat -> nat -> nat) (k n : nat) (cars : list Car)
    : option (list Car) :=
  match n with
  | O => Some cars
  | S n' =>
      match trafficFrame sqrt mounted roads cars (rnd k) with
      | Skipped => trafficFrames sqrt mounted roads rnd (S k) n' cars
      | Ran cs _ => trafficFrames sqrt mounted roads rnd (S k) n' cs
      | Threw _ => None
      end
  end.

(** ** Train ([TrainSystem]) *)

Definition isRailTile (t : TileData) : bool :=
  bool_decide (buildingType t = Rail) || isRail t.

(** The comparator [(a.x - b.x) + (a.y - b.y) * 0.1], in tenths; on grid
    coordinates the two have the same sign. *)
Definition railCmp (a b : Pos) : Z :=
  10 * (posX a - posX b) + (posY a - posY b).

(** [Array.prototype.sort] is stable; with this comparator (a difference of
    keys) it is the stable insertion sort. *)
Fixpoint insertRail (a : Pos) (l : list Pos) : list Pos :=
  match l with
  | [] => [a]
  | b :: l' => if railCmp a b <=? 0 then a :: b :: l'
               else b :: insertRail a l'
  end.

Definition sortRail (l : list Pos) : list Pos := foldr insertRail [] l.

Definition railTiles (g : Grid) : list Pos :=
  sortRail (collectTiles isRailTile g).

(** [if (railTiles.length === 0) return null; return <group ... />]. *)
Definition trainRender (rails : list Pos) : option unit :=
  if (length rails =? 0)%nat then None else Some tt.

Definition trainSpeed : Q := 3.

(** The "ping pong" of the frame callback: [pos] and whether [rawPos] is
    beyond [totalLen]. *)
Definition pingPong (totalLen : Q) (progress : Q) : Q * bool :=
  let rawPos := Qrem progress (totalLen * 2) in
  (if Qgtb rawPos totalLen then (totalLen * 2 - rawPos)%Q else rawPos,
   Qgtb rawPos totalLen).

(** [railTiles[i]] for a number [i]. *)
Definition lookupZ {A} (l : list A) (i : Z) : option A :=
  if i <? 0 then None else l !! Z.to_nat i.

(** What is drawn for the train: its world position, the vector whose
    [atan2] is the angle, and whether [Math.PI] is added to it. *)
Record TrainPose := mkTrainPose {
  trainWorld : Q * Q;
  trainDir : Z * Z;
  trainReversed : bool
}.

(** The frame callback; [mounted] is [trainRef.current] being set, [delta]
    the seconds since the last frame. The state is [progressRef.current],
    written before the tiles are read. *)
Definition trainFrame (mounted : bool) (rails : list Pos) (progress delta : Q)
    : FrameResult Q TrainPose :=
  if negb mounted || (length rails <? 2)%nat then Skipped
  else
    let progress' := (progress + delta * trainSpeed)%Q in
    let totalLen := Z.of_nat (length rails) in
    let '(pos, reversed) := pingPong (inject_Z totalLen) progress' in
    let idx := Qfloor pos in
    let nextIdx := Z.min (idx + 1) (totalLen - 1) in
    let t := (pos - inject_Z idx)%Q in
    match lookupZ rails idx, lookupZ rails nextIdx with
    | Some cur, Some next =>
        Ran progress'
            (mkTrainPose
               (gridToWorld
                  (lerp (inject_Z (posX cur)) (inject_Z (posX next)) t)
                  (lerp (inject_Z (posY cur)) (inject_Z (posY next)) t))
               (posX next - posX cur, posY next - posY cur)
               reversed)
    | _, _ => Threw progress'
    end.

(** The ping-pong as the specification words it: a triangle wave over
    [0, 2 (count - 1)], folding at the last index [count - 1]. *)
Definition specPingPong (count : Z) (progress : Q) : Q * bool :=
  let last := inject_Z (count - 1) in
  let rawPos := Qrem progress (2 * last) in
  (if Qgtb rawPos last then (2 * last - rawPos)%Q else rawPos,
   Qgtb rawPos last).

(** ** Pedestrians ([PopulationSystem]) *)

Definition isWalkable (t : TileData) : bool :=
  owned t && negb (isWater t) && negb (isRail t)
  && (bool_decide (buildingType t = Road)
      || bool_decide (buildingType t = Park)
      || bool_decide (buildingType t = None_)).

Definition walkableTiles (g : Grid) : list Pos := collectTiles isWalkable g.

(** [Math.min(Math.floor(population / 2), 300)]. *)
Definition agentCount (population : Z) : Z := Z.min (population / 2) 300.

(** The six cells an agent has in [agentsState]. *)
Record Agent := mkAgent {
  agX : Q;
  agY : Q;
  agTX : Q;
  agTY : Q;
  agSpeed : Q;
  agAnim : Q
}.

(** A random tile with its jitter:
    [walkableTiles[Math.floor(Math.random() * length)]] and two
    [getRandomRange(-0.4, 0.4)]. *)
Record TileDraw := mkTileDraw {
  pickIdx : nat;
  pickJx : Q;
  pickJy : Q
}.

Definition pickTile (walkable : list Pos) (d : TileDraw) : option (Q * Q) :=
  t ← walkable !! (pickIdx d mod length walkable)%nat;
  Some (inject_Z (posX t) + pickJx d, inject_Z (posY t) + pickJy d)%Q.

(** [if (agentCount === 0) return null; return <instancedMesh ... />]. *)
Definition populationRender (count : Z) : option Z :=
  if count =? 0 then None else Some count.

(** The draws of the effect for one agent. *)
Record SpawnDraw := mkSpawnDraw {
  spawnAt : TileDraw;
  spawnTarget : TileDraw;
  spawnSpeed : Q;
  spawnAnim : Q
}.

Definition seedAgent (walkable : list Pos) (d : SpawnDraw) : option Agent :=
  p ← pickTile walkable (spawnAt d);
  q ← pickTile walkable (spawnTarget d);
  Some (mkAgent (fst p) (snd p) (fst q) (snd q) (spawnSpeed d) (spawnAnim d)).

Definition populationEffect (count : Z) (walkable : list Pos)
    (draw : nat -> SpawnDraw) (old : list Agent) : option (list Agent) :=
  if (count =? 0) || (length walkable =? 0)%nat then Some old
  else mapM (fun i => seedAgent walkable (draw i)) (seq 0 (Z.to_nat count)).

(** What is drawn for an agent: its world position and the vector to its
    target (the bounce is cosmetic). *)
Record AgentPose := mkAgentPose {
  agentWorld : Q * Q;
  agentDir : Q * Q
}.

Definition agentBody (sqrt : Q -> Q) (walkable : list Pos)
    (draw : nat -> TileDraw) (i : nat) (a : Agent)
    : option (Agent * AgentPose) :=
  let dx := (agTX a - agX a)%Q in
  let dy := (agTY a - agY a)%Q in
  let dist := sqrt (dx * dx + dy * dy)%Q in
  if Qltb dist (1 # 10) then
    if (0 <? length walkable)%nat then
      p ← pickTile walkable (draw i);
      Some (mkAgent (agX a) (agY a) (fst p) (snd p) (agSpeed a) (agAnim a),
            mkAgentPose (gridToWorld (agX a) (agY a)) (dx, dy))
    else Some (a, mkAgentPose (gridToWorld (agX a) (agY a)) (dx, dy))
  else
    let x := (agX a + (dx / dist) * agSpeed a)%Q in
    let y := (agY a + (dy / dist) * agSpeed a)%Q in
    Some (mkAgent x y (agTX a) (agTY a) (agSpeed a) (agAnim a),
          mkAgentPose (gridToWorld x y) (dx, dy)).

(** The frame callback; [mounted] is [meshRef.current] being set. *)
Definition populationFrame (sqrt : Q -> Q) (mounted : bool) (count : Z)
    (walkable : list Pos) (agents : list Agent) (draw : nat -> TileDraw)
    : FrameResult (list Agent) (list AgentPose) :=
  if negb mounted || (count =? 0) || (length agents =? 0)%nat then Skipped
  else
    match frameLoop (agentBody sqrt walkable draw) 0
                    (take (Z.to_nat count) agents)
    with
    | Ran l vs => Ran (l ++ drop (Z.to_nat count) agents) vs
    | Threw l => Threw (l ++ drop (Z.to_nat count) agents)
    | Skipped => Skipped
    end.

(** ** The three systems side by side *)

Inductive MovementSystem := Vehicles | Train | Pedestrians.

(** What a frame callback is given beyond the grid and the population: the
    ref, the agent state, the random draws, the frame delta. *)
Record FrameInput := mkFrameInput {
  inMounted : bool;
  inCars : list Car;
  inCarDraw : nat -> nat;
  inProgress : Q;
  inDelta : Q;
  inAgents : list Agent;
  inAgentDraw : nat -> TileDraw
}.

Definition frameSkips (sqrt : Q -> Q) (sys : MovementSystem) (g : Grid)
    (pop : Z) (i : FrameInput) : Prop :=
  match sys with
  | Vehicles =>
      trafficFrame sqrt (inMounted i) (roadTiles g) (inCars i) (inCarDraw i)
      = Skipped
  | Train =>
      trainFrame (inMounted i) (railTiles g) (inProgress i) (inDelta i)
      = Skipped
  | Pedestrians =>
      populationFrame sqrt (inMounted i) (agentCount pop) (walkableTiles g)
                      (inAgents i) (inAgentDraw i)
      = Skipped
  end.

Definition rendersNothing (sys : MovementSystem) (g : Grid) (pop : Z)
    : Prop :=
  match sys with
  | Vehicles => trafficRender (roadTiles g) = None
  | Train => trainRender (railTiles g) = None
  | Pedestrians => populationRender (agentCount pop) = None
  end.

(** The size of the system's movement graph. *)
Definition graphSize (sys : MovementSystem) (g : Grid) : nat :=
  match sys with
  | Vehicles => length (roadTiles g)
  | Train => length (railTiles g)
  | Pedestrians => length (walkableTiles g)
  end.

(** When the frame callback returns at once: fewer than two tiles for the
    vehicles and the train, no agent for the pedestrians. *)
Definition frameGate (sys : MovementSystem) (g : Grid) (pop : Z) : Prop :=
  match sys with
  | Vehicles | Train => (graphSize sys g < 2)%nat
  | Pedestrians => agentCount pop = 0
  end.

(** When nothing is rendered: fewer than two road tiles, no rail tile, no
    agent. *)
Definition renderGate (sys : MovementSystem) (g : Grid) (pop : Z) : Prop :=
  match sys with
  | Vehicles => (graphSize sys g < 2)%nat
  | Train => graphSize sys g = 0%nat
  | Pedestrians => agentCount pop = 0
  end.

(** ** Concrete cities and inputs *)

(** [Math.sqrt] where it is exact: on the squares of integers. *)
Definition intSqrt (q : Q) : Q := inject_Z (Z.sqrt (Qfloor q)).

(** Three rail tiles in a row: A = (12,12), B = (13,12), C = (14,12). *)
Definition railCity : State :=
  stateAfter [ESelectTool Rail; EClick 14 12; EClick 12 12; EClick 13 12]
             startedCity.

(** A single rail tile. *)
Definition oneRailCity : State :=
  stateAfter [ESelectTool Rail; EClick 12 12] startedCity.

(** Two adjacent road tiles. *)
Definition roadCity : State :=
  stateAfter [ESelectTool Road; EClick 12 12; EClick 13 12] startedCity.

(** Houses on every dry tile of the initial plot but (14,14), and one
    tick. *)
Definition denseCity : State :=
  stateAfter
    [ESelectTool Residential;
     EClick 12 10; EClick 13 10; EClick 14 10;
     EClick 11 11; EClick 12 11; EClick 13 11; EClick 14 11;
     EClick 11 12; EClick 12 12; EClick 13 12; EClick 14 12;
     EClick 11 13; EClick 12 13; EClick 13 13; EClick 14 13;
     EClick 12 14; EClick 13 14; ETick]
    startedCity.

Definition noJitter : TileDraw := mkTileDraw 0 0 0.

Definition plainSpawn : SpawnDraw :=
  mkSpawnDraw noJitter noJitter (1 # 100) 0.

(** A point of the segment between two tiles. *)
Definition onSegment (a b : Pos) (p : Q * Q) : Prop :=
  exists s : Q, (0 <= s)%Q /\ (s <= 1)%Q
    /\ (fst p == inject_Z (posX a) + s * inject_Z (posX b - posX a))%Q
    /\ (snd p == inject_Z (posY a) + s * inject_Z (posY b - posY a))%Q.

Definition carCur (c : Car) : Pos := mkPos (curX c) (curY c).
Definition carTar (c : Car) : Pos := mkPos (tarX c) (tarY c).

(** A car as the effect and the frames leave it. *)
Definition carInv (roads : list Pos) (c : Car) : Prop :=
  carCur c ∈ roads /\ carTar c ∈ roads
  /\ (0 <= progress c)%Q /\ (progress c <= 1)%Q
  /\ (1 # 100 <= speed c)%Q /\ (speed c <= 3 # 100)%Q.

(** * Further properties: definitions *)

(** The five ways a click changes the clicked tile and the money: the tile
    [t] at [(x, y)] of the grid [g] becomes the tile in the first index and
    the money changes by the amount in the second, for the selected [tool]
    and the funds at hand. *)
Inductive Transaction (g : Grid) (x y : Z) (funds : Z) (tool : BuildingType)
    (t : TileData) : TileData -> Z -> Prop :=
| TxSell :
    tool = Land -> isWater t = false -> owned t = true ->
    buildingType t = None_ ->
    Transaction g x y funds tool t (withOwned false t)
                (orDefault (landPrice t) LAND_COST / 2)
| TxBuy :
    tool = Land -> isWater t = false -> owned t = false ->
    hasOwnedNeighbor g x y = Some true ->
    orDefault (landPrice t) LAND_COST <= funds ->
    Transaction g x y funds tool t (withOwned true t)
                (- orDefault (landPrice t) LAND_COST)
| TxBulldoze :
    tool = None_ -> owned t = true -> isWater t = false ->
    buildingType t <> None_ -> demolishCost <= funds ->
    Transaction g x y funds tool t (withBuildingRail None_ false t)
                (- demolishCost)
| TxRail :
    tool = Rail -> owned t = true ->
    buildingType t = None_ \/ isWater t = true ->
    cost (BUILDINGS Rail) <= funds ->
    Transaction g x y funds tool t (withBuildingRail Rail true t)
                (- cost (BUILDINGS Rail))
| TxPlace :
    tool <> None_ -> tool <> Land -> tool <> Rail -> owned t = true ->
    (isWater t = true <-> tool = Bridge) ->
    buildingType t = None_ \/ tool = Bridge ->
    cost (BUILDINGS tool) <= funds ->
    Transaction g x y funds tool t (withBuilding tool t)
                (- cost (BUILDINGS tool)).

(** The parts of the state a click never touches. *)
Definition sameControls (s s' : State) : Prop :=
  gameStarted s' = gameStarted s /\ selectedTool s' = selectedTool s
  /\ timeOfDay s' = timeOfDay s /\ tickCounter s' = tickCounter s
  /\ population (stats s') = population (stats s)
  /\ day (stats s') = day (stats s).

(** The news feed is as it was or has one more item. *)
Definition feedGrows (s s' : State) : Prop :=
  newsFeed s' = newsFeed s
  \/ exists item, newsFeed s' = sliceLast 12 (newsFeed s) ++ [item].

(** The fields of a tile fixed at grid generation. *)
Definition sameTerrain (t0 t : TileData) : Prop :=
  tileX t = tileX t0 /\ tileY t = tileY t0
  /\ isWater t = isWater t0 /\ landPrice t = landPrice t0.

(** How buildings sit on the terrain: a built tile is owned, water carries
    only rails and bridges, bridges stand on water, and the Land tool is
    never a building. *)
Definition builtShape (t : TileData) : Prop :=
  (buildingType t <> None_ -> owned t = true)
  /\ (isWater t = true ->
      buildingType t = None_ \/ buildingType t = Rail
      \/ buildingType t = Bridge)
  /\ (buildingType t = Bridge -> isWater t = true)
  /\ buildingType t <> Land.

(** The number of owned tiles that hold a building of type [b]. *)
Definition ownedCount (b : BuildingType) (tiles : list TileData) : Z :=
  Z.of_nat (length (filter (fun t => owned t = true /\ buildingType t = b)
                           tiles)).

Definition oneIf (b : bool) : Z := if b then 1 else 0.

(** The sort key of the rail tiles, in tenths: [x + 0.1 y] times 10. *)
Definition railKey (p : Pos) : Z := 10 * posX p + posY p.

(** A car between two road tiles that are the same or orthogonal
    neighbours. *)
Definition carMoves (roads : list Pos) (c : Car) : Prop :=
  carInv roads c
  /\ (carTar c = carCur c
      \/ isNeighbor (curX c) (curY c) (carTar c) = true).

(** The grid has a tile at position [p] that satisfies [P]. *)
Definition tileAt (g : Grid) (P : TileData -> Prop) (p : Pos) : Prop :=
  exists row t, row ∈ g /\ t ∈ row /\ tilePos t = p /\ P t.

(** A jitter as [getRandomRange(-0.4, 0.4)] draws it. *)
Definition jitterOk (d : TileDraw) : Prop :=
  (- (2 # 5) <= pickJx d)%Q /\ (pickJx d <= 2 # 5)%Q
  /\ (- (2 # 5) <= pickJy d)%Q /\ (pickJy d <= 2 # 5)%Q.

(** A point within 0.4 of a walkable tile, in both directions. *)
Definition nearWalkable (walkable : list Pos) (x y : Q) : Prop :=
  exists p, p ∈ walkable
    /\ (inject_Z (posX p) - (2 # 5) <= x)%Q
    /\ (x <= inject_Z (posX p) + (2 # 5))%Q
    /\ (inject_Z (posY p) - (2 # 5) <= y)%Q
    /\ (y <= inject_Z (posY p) + (2 # 5))%Q.

(** A rail on the owned water tile (10,10). *)
Definition waterRailCity : State :=
  stateAfter [ESelectTool Rail; EClick 10 10] startedCity.

(** Three road tiles in a row and a car about to reach the middle one. *)
Definition roads3 : list Pos := [mkPos 12 12; mkPos 13 12; mkPos 14 12].

Definition arrivingCar : Car := mkCar 12 12 13 12 (99 # 100) (3 # 100).

(** Splits a conjunction of facts already at hand. *)
#[local] Ltac splits :=
  repeat match goal with |- _ /\ _ => split end;
  first [assumption | reflexivity | discriminate].


(** * Properties *)

(** ** The economic tick *)

Lemma incomeGen_nonneg (t : BuildingType) : 0 <= incomeGen (BUILDINGS t).
Proof. destruct t; simpl; lia. Qed.

Lemma popGen_nonneg (t : BuildingType) : 0 <= popGen (BUILDINGS t).
Proof. destruct t; simpl; lia. Qed.

Lemma scanTile_nonneg (acc : TickScan) (tile : TileData) :
  scanNonneg acc -> scanNonneg (scanTile acc tile).
Proof.
  intros (Hi & Hp & Hc). unfold scanTile.
  destruct (negb _ && owned tile); [|by repeat split].
  destruct (negb _); [|by repeat split].
  pose proof (incomeGen_nonneg (buildingType tile)).
  pose proof (popGen_nonneg (buildingType tile)).
  repeat split; simpl; try lia.
  intros t. specialize (Hc t). case_bool_decide; lia.
Qed.

Lemma fold_scan_nonneg (l : list TileData) (acc : TickScan) :
  scanNonneg acc -> scanNonneg (fold_left scanTile l acc).
Proof.
  revert acc. induction l as [|tile l IH]; simpl; intros acc H; [done|].
  by apply IH, scanTile_nonneg.
Qed.

Lemma scanGrid_nonneg (g : Grid) : scanNonneg (scanGrid g).
Proof. apply fold_scan_nonneg. repeat split; simpl; lia. Qed.

Lemma resCount_nonneg (g : Grid) : 0 <= resCount g.
Proof. apply scanGrid_nonneg. Qed.

Lemma economicTick_grid (s : State) : grid (economicTick s) = grid s.
Proof. reflexivity. Qed.

Lemma economicTick_population (s : State) :
  population (stats (economicTick s)) =
  population (tickStats (scanGrid (grid s)) false (stats s)).
Proof. reflexivity. Qed.

Lemma tickStats_population (scan : TickScan) (d : bool) (prev : CityStats) :
  population (tickStats scan d prev) =
  if (buildingCounts scan Residential =? 0) && (population prev >? 0)
  then Z.max 0 (population prev - 5)
  else Z.min (population prev + dailyPopGrowth scan)
             (buildingCounts scan Residential * 50).
Proof.
  unfold tickStats. cbn [population].
  destruct (_ && _); [done|].
  destruct (Z.gtb_spec (population prev + dailyPopGrowth scan)
                       (buildingCounts scan Residential * 50)); lia.
Qed.

(** C1 (as stated) fails: a house is built at (12,12), two ticks bring the
    population to 10, the house is bulldozed; the next tick counts no
    Residential tile and leaves a population of 5, above the cap of 0. *)
Lemma tick_population_cap_counterexample :
  let s := stateAfter [EStart; ESelectTool Residential; EClick 12 12; ETick;
                       ETick; ESelectTool None_; EClick 12 12] freshCity in
  resCount (grid s) = 0
  /\ population (stats (economicTick s)) = 5
  /\ ~ population (stats (economicTick s)) <= resCount (grid s) * 50.
Proof. vm_compute. repeat split; congruence. Qed.

(** C1 (amended): after a tick the population is at most
    [residentialCount * 50], for every state in which the tick counts at
    least one owned Residential tile or the population is not positive, that
    is, whenever the tick does not take the flight branch. *)
Theorem tick_population_cap (s : State) :
  resCount (grid s) <> 0 \/ population (stats s) <= 0 ->
  population (stats (economicTick s)) <= resCount (grid s) * 50.
Proof.
  intros H. rewrite economicTick_population, tickStats_population.
  fold (resCount (grid s)).
  destruct (Z.eqb_spec (resCount (grid s)) 0) as [E|E];
    destruct (Z.gtb_spec (population (stats s)) 0) as [P|P];
    cbn [andb]; lia.
Qed.

Lemma tick_population_cap_witness :
  let s := stateAfter [EStart; ESelectTool Residential; EClick 12 12; ETick]
                      freshCity in
  (resCount (grid s) <> 0 \/ population (stats s) <= 0)
  /\ population (stats (economicTick s)) <= resCount (grid s) * 50.
Proof.
  split.
  - left. vm_compute. discriminate.
  - apply tick_population_cap. left. vm_compute. discriminate.
Defined.

Lemma tickStats_flight (scan : TickScan) (d : bool) (prev : CityStats) :
  scanNonneg scan ->
  buildingCounts scan Residential = 0 -> 0 <= population prev ->
  population (tickStats scan d prev) = Z.max 0 (population prev - 5).
Proof.
  intros (_ & Hp & _) E P. rewrite tickStats_population, E.
  destruct (Z.gtb_spec (population prev) 0); cbn [andb Z.eqb]; lia.
Qed.

Lemma iter_tick_grid (n : nat) (s : State) :
  grid (Nat.iter n economicTick s) = grid s.
Proof.
  induction n as [|n IH]; [done|].
  change (Nat.iter (S n) economicTick s)
    with (economicTick (Nat.iter n economicTick s)).
  by rewrite economicTick_grid.
Qed.

(** C3: with no owned Residential tile and a positive population, a tick
    sets the population to [max 0 (population - 5)], which is strictly
    smaller, whatever the growth the other buildings contribute; over [n]
    such ticks the population is [max 0 (population - 5 n)]: it reaches 0 and
    stays there. *)
Theorem flight_decreases_population (s : State) :
  resCount (grid s) = 0 -> 0 < population (stats s) ->
  population (stats (economicTick s)) = Z.max 0 (population (stats s) - 5)
  /\ population (stats (economicTick s)) < population (stats s)
  /\ forall n : nat,
       population (stats (Nat.iter n economicTick s))
       = Z.max 0 (population (stats s) - 5 * Z.of_nat n).
Proof.
  intros E P.
  assert (Hstep : forall s', resCount (grid s') = 0 ->
            0 <= population (stats s') ->
            population (stats (economicTick s'))
            = Z.max 0 (population (stats s') - 5)).
  { intros s' E' P'. rewrite economicTick_population.
    apply tickStats_flight; [apply scanGrid_nonneg|done|done]. }
  split; [|split].
  - apply Hstep; lia.
  - rewrite Hstep; lia.
  - intros n. induction n as [|n IH]; [simpl; lia|].
    change (Nat.iter (S n) economicTick s)
      with (economicTick (Nat.iter n economicTick s)).
    rewrite Hstep, IH; [lia| |].
    + by rewrite iter_tick_grid.
    + rewrite IH. lia.
Qed.

Lemma flight_decreases_population_witness :
  let s := stateAfter [EStart; ESelectTool Residential; EClick 12 12; ETick;
                       ETick; ESelectTool None_; EClick 12 12;
                       ESelectTool Park; EClick 13 13] freshCity in
  (resCount (grid s) = 0 /\ 0 < population (stats s)
   /\ dailyPopGrowth (scanGrid (grid s)) = 1)
  /\ population (stats (economicTick s)) = Z.max 0 (population (stats s) - 5)
  /\ population (stats (economicTick s)) < population (stats s)
  /\ forall n : nat,
       population (stats (Nat.iter n economicTick s))
       = Z.max 0 (population (stats s) - 5 * Z.of_nat n).
Proof.
  split.
  - vm_compute. repeat split.
  - apply flight_decreases_population; vm_compute; reflexivity.
Defined.

(** ** The grid *)

Lemma getTile_Some (g : Grid) (x y : Z) (t : TileData) :
  getTile g x y = Some t <->
  exists row, g !! Z.to_nat y = Some row /\ row !! Z.to_nat x = Some t.
Proof.
  unfold getTile. destruct (g !! Z.to_nat y) as [row|]; simpl.
  - split; [intros H; by exists row|intros (r & [= <-] & H); done].
  - split; [done|intros (r & H & _); done].
Qed.

Lemma getTile_wf (g : Grid) (x y : Z) :
  wfGrid g -> inBounds x y -> is_Some (getTile g x y).
Proof.
  intros [Hl Hr] [Hx Hy].
  destruct (lookup_lt_is_Some_2 g (Z.to_nat y)) as [row Hrow]; [lia|].
  pose proof (Forall_lookup_1 _ _ _ _ Hr Hrow) as Hlen. simpl in Hlen.
  destruct (lookup_lt_is_Some_2 row (Z.to_nat x)) as [t Ht]; [lia|].
  exists t. apply getTile_Some. eauto.
Qed.

Lemma setTile_wf (g : Grid) (x y : Z) (t : TileData) :
  wfGrid g -> wfGrid (setTile g x y t).
Proof.
  intros [Hl Hr]. split; unfold setTile.
  - by rewrite length_alter.
  - apply Forall_alter; [done|]. intros row _ Hlen.
    by rewrite length_insert.
Qed.

Lemma setTile_Forall (P : TileData -> Prop) (g : Grid) (x y : Z)
    (t : TileData) :
  gridForall P g -> P t -> gridForall P (setTile g x y t).
Proof.
  intros Hg Ht. unfold gridForall, setTile.
  apply Forall_alter; [done|]. intros row _ Hrow. by apply Forall_insert.
Qed.

Lemma getTile_Forall (P : TileData -> Prop) (g : Grid) (x y : Z)
    (t : TileData) :
  gridForall P g -> getTile g x y = Some t -> P t.
Proof.
  intros Hg (row & Hrow & Ht)%getTile_Some.
  eapply Forall_lookup_1; [|exact Ht]. eapply Forall_lookup_1; eauto.
Qed.

Lemma getTile_setTile_eq (g : Grid) (x y : Z) (t0 t : TileData) :
  getTile g x y = Some t0 -> getTile (setTile g x y t) x y = Some t.
Proof.
  intros (row & Hrow & Ht)%getTile_Some. apply getTile_Some.
  exists (<[Z.to_nat x := t]> row). split.
  - unfold setTile. by rewrite list_lookup_alter_eq, Hrow.
  - apply list_lookup_insert_eq. by eapply lookup_lt_Some.
Qed.

Lemma getTile_setTile_ne (g : Grid) (x y x' y' : Z) (t : TileData) :
  Z.to_nat x' <> Z.to_nat x \/ Z.to_nat y' <> Z.to_nat y ->
  getTile (setTile g x y t) x' y' = getTile g x' y'.
Proof.
  intros H. unfold getTile, setTile.
  destruct (decide (Z.to_nat y = Z.to_nat y')) as [E|E].
  - rewrite <- E, list_lookup_alter_eq.
    destruct (g !! Z.to_nat y) as [row|]; simpl; [|done].
    apply list_lookup_insert_ne. lia.
  - by rewrite list_lookup_alter_ne.
Qed.

(** ** The initial grid *)

Lemma indices_lookup (i : Z) :
  0 <= i < GRID_SIZE -> indices !! Z.to_nat i = Some i.
Proof.
  intros H. unfold indices. rewrite lookup_seqZ_lt by lia.
  f_equal. lia.
Qed.

Lemma createInitialGrid_wf (riverY : Z -> Z) (variance : Z -> Z -> Z) :
  wfGrid (createInitialGrid riverY variance).
Proof.
  split; unfold createInitialGrid.
  - by rewrite length_fmap.
  - apply Forall_fmap, Forall_forall. intros y _. unfold compose.
    by rewrite length_fmap.
Qed.

Lemma createInitialGrid_Forall (P : TileData -> Prop) (riverY : Z -> Z)
    (variance : Z -> Z -> Z) :
  (forall x y, inBounds x y -> P (initialTile riverY variance y x)) ->
  gridForall P (createInitialGrid riverY variance).
Proof.
  intros H. unfold gridForall, createInitialGrid.
  assert (Hin : forall i, i ∈ indices -> 0 <= i < GRID_SIZE).
  { intros i Hi%elem_of_seqZ. lia. }
  apply Forall_fmap, Forall_forall. intros y Hy. unfold compose.
  apply Forall_fmap, Forall_forall. intros x Hx. unfold compose.
  apply H. split; auto.
Qed.

Lemma createInitialGrid_lookup (riverY : Z -> Z) (variance : Z -> Z -> Z)
    (x y : Z) :
  inBounds x y ->
  getTile (createInitialGrid riverY variance) x y
  = Some (initialTile riverY variance y x).
Proof.
  intros [Hx Hy]. apply getTile_Some. unfold createInitialGrid.
  eexists. split.
  - rewrite list_lookup_fmap, indices_lookup by done. reflexivity.
  - rewrite list_lookup_fmap, indices_lookup by done. reflexivity.
Qed.

Lemma initialTile_price (riverY : Z -> Z) (variance : Z -> Z -> Z) (x y : Z) :
  0 <= variance x y -> 5000 <= landPrice (initialTile riverY variance y x).
Proof.
  intros H. simpl.
  pose proof (Z.sqrt_nonneg (250000 * ((x - center) ^ 2 + (y - center) ^ 2))).
  lia.
Qed.

(** ** Tile interaction *)

Lemma guardedOwned_wf (cond : bool) (g : Grid) (x y : Z) :
  wfGrid g -> (cond = true -> inBounds x y) ->
  exists b, guardedOwned cond g x y = Some b
            /\ (b = true <->
                cond = true /\ exists t, getTile g x y = Some t
                                         /\ owned t = true).
Proof.
  intros Hwf Hb. unfold guardedOwned. destruct cond.
  - destruct (getTile_wf g x y Hwf (Hb eq_refl)) as [t Ht].
    rewrite Ht. exists (owned t). split; [done|]. split.
    + intros Ho. split; [done|]. by exists t.
    + intros (_ & t' & [= <-] & Ho). done.
  - exists false. split; [done|]. split; [done|]. by intros [? _].
Qed.

Lemma hasOwnedNeighbor_wf (g : Grid) (x y : Z) :
  wfGrid g -> inBounds x y ->
  exists b, hasOwnedNeighbor g x y = Some b
            /\ (b = true <-> ownedNeighbor g x y).
Proof.
  intros Hwf [Hx Hy]. unfold hasOwnedNeighbor, GRID_SIZE in *.
  destruct (guardedOwned_wf (x >? 0) g (x - 1) y Hwf) as (b1 & -> & H1).
  { intros ?%Z.gtb_lt. unfold inBounds, GRID_SIZE. lia. }
  destruct (guardedOwned_wf (x <? 25 - 1) g (x + 1) y Hwf) as (b2 & -> & H2).
  { intros ?%Z.ltb_lt. unfold inBounds, GRID_SIZE. lia. }
  destruct (guardedOwned_wf (y >? 0) g x (y - 1) Hwf) as (b3 & -> & H3).
  { intros ?%Z.gtb_lt. unfold inBounds, GRID_SIZE. lia. }
  destruct (guardedOwned_wf (y <? 25 - 1) g x (y + 1) Hwf) as (b4 & -> & H4).
  { intros ?%Z.ltb_lt. unfold inBounds, GRID_SIZE. lia. }
  exists (b1 || b2 || b3 || b4). split.
  { by destruct b1, b2, b3, b4. }
  rewrite !orb_true_iff, H1, H2, H3, H4. unfold ownedNeighbor. split.
  - intros [[[(Hc & t & Ht & Ho)|(Hc & t & Ht & Ho)]|(Hc & t & Ht & Ho)]
           |(Hc & t & Ht & Ho)];
      [apply Z.gtb_lt in Hc|apply Z.ltb_lt in Hc
      |apply Z.gtb_lt in Hc|apply Z.ltb_lt in Hc];
      [exists (x - 1), y, t|exists (x + 1), y, t
      |exists x, (y - 1), t|exists x, (y + 1), t];
      (split; [unfold inBounds, GRID_SIZE; lia|]); (split; [lia|done]).
  - intros (x' & y' & t & [Hx' Hy'] & Hd & Ht & Ho).
    assert ((x' = x - 1 /\ y' = y) \/ (x' = x + 1 /\ y' = y)
            \/ (x' = x /\ y' = y - 1) \/ (x' = x /\ y' = y + 1))
      as [[-> ->]|[[-> ->]|[[-> ->]|[-> ->]]]] by lia;
      unfold GRID_SIZE in *.
    + left; left; left. split; [apply Z.gtb_lt; lia|eauto].
    + left; left; right. split; [apply Z.ltb_lt; lia|eauto].
    + left; right. split; [apply Z.gtb_lt; lia|eauto].
    + right. split; [apply Z.ltb_lt; lia|eauto].
Qed.

Lemma orDefault_pos (v d : Z) : 1 <= v -> orDefault v d = v.
Proof. intros H. unfold orDefault. destruct (Z.eqb_spec v 0); lia. Qed.

Lemma cityInv_addNewsItem (item : NewsItem) (s : State) :
  cityInv s -> cityInv (addNewsItem item s).
Proof. done. Qed.

Lemma cityInv_setTile (s : State) (x y : Z) (t : TileData) (d : Z) :
  cityInv s -> 1 <= landPrice t -> 0 <= money (stats s) + d ->
  cityInv (setStats (addMoney d) (setGrid (setTile (grid s) x y t) s)).
Proof.
  intros (Hwf & Hp & Hm) Ht Hd. split; [|split]; simpl.
  - by apply setTile_wf.
  - by apply setTile_Forall.
  - done.
Qed.

Lemma landTool_inv (x y : Z) (t : TileData) (s : State) :
  cityInv s -> inBounds x y -> getTile (grid s) x y = Some t ->
  exists s', landTool x y t s = Some s' /\ cityInv s'.
Proof.
  intros Hinv Hb Ht.
  assert (Hprice : 1 <= landPrice t).
  { destruct Hinv as (_ & Hp & _). exact (getTile_Forall _ _ _ _ _ Hp Ht). }
  destruct (hasOwnedNeighbor_wf (grid s) x y) as (b & Hn & _);
    [apply Hinv|done|].
  unfold landTool. rewrite Hn, orDefault_pos by done. simpl.
  destruct (isWater t); [by eauto using cityInv_addNewsItem|].
  destruct (owned t).
  - case_bool_decide; [|by eauto using cityInv_addNewsItem].
    eexists. split; [done|]. apply cityInv_addNewsItem, cityInv_setTile;
      [done|done|].
    destruct Hinv as (_ & _ & Hm).
    pose proof (Z.div_pos (landPrice t) 2). lia.
  - destruct b; [|by eauto using cityInv_addNewsItem].
    destruct (Z.geb_spec (money (stats s)) (landPrice t));
      [|by eauto using cityInv_addNewsItem].
    eexists. split; [done|]. apply cityInv_addNewsItem, cityInv_setTile;
      [done|done|lia].
Qed.

Lemma cost_nonneg (t : BuildingType) : 0 <= cost (BUILDINGS t).
Proof. destruct t; simpl; unfold LAND_COST; lia. Qed.

Lemma buildTool_inv (x y : Z) (tool : BuildingType) (t : TileData)
    (s : State) :
  cityInv s -> getTile (grid s) x y = Some t ->
  cityInv (buildTool x y tool t s).
Proof.
  intros Hinv Ht.
  assert (Hprice : 1 <= landPrice t).
  { destruct Hinv as (_ & Hp & _). exact (getTile_Forall _ _ _ _ _ Hp Ht). }
  unfold buildTool.
  destruct (negb (owned t)); [by apply cityInv_addNewsItem|].
  destruct (_ && _ && _); [by apply cityInv_addNewsItem|].
  destruct (_ && _); [by apply cityInv_addNewsItem|].
  case_bool_decide.
  - destruct (negb _); [|done].
    destruct (Z.geb_spec (money (stats s)) demolishCost);
      [|by apply cityInv_addNewsItem].
    apply cityInv_setTile; [done|done|lia].
  - destruct (_ || _ || _); [|done].
    destruct (Z.geb_spec (money (stats s)) (cost (BUILDINGS tool)));
      [|by apply cityInv_addNewsItem].
    destruct Hinv as (Hwf & Hp & Hm). split; [|split]; simpl.
    + by apply setTile_wf.
    + apply setTile_Forall; [done|]. by case_bool_decide.
    + lia.
Qed.

Lemma handleTileClick_inv (x y : Z) (s : State) :
  cityInv s -> exists s', handleTileClick x y s = Some s' /\ cityInv s'.
Proof.
  intros Hinv. unfold handleTileClick.
  destruct (negb (gameStarted s)); [by eauto|].
  destruct (_ || _ || _ || _) eqn:Hb; [by eauto|].
  apply orb_false_elim in Hb as [Hb Hy2].
  apply orb_false_elim in Hb as [Hb Hy1].
  apply orb_false_elim in Hb as [Hx1 Hx2].
  assert (Hin : inBounds x y).
  { unfold inBounds. lia. }
  destruct (getTile_wf (grid s) x y) as [t Ht]; [apply Hinv|done|].
  rewrite Ht. simpl. case_bool_decide.
  - by apply landTool_inv.
  - eexists. split; [done|]. by apply buildTool_inv.
Qed.

Lemma economicTick_inv (s : State) : cityInv s -> cityInv (economicTick s).
Proof.
  intros (Hwf & Hp & Hm). split; [|split]; [done|done|]. simpl.
  pose proof (scanGrid_nonneg (grid s)) as (Hi & _). lia.
Qed.

Lemma step_inv (e : Event) (s : State) :
  cityInv s -> exists s', step e s = Some s' /\ cityInv s'.
Proof.
  intros Hinv. destruct e; simpl.
  - destruct (gameStarted s); by eauto.
  - destruct (gameStarted s); by eauto.
  - destruct (gameStarted s); eauto using economicTick_inv.
  - destruct (gameStarted s); by eauto.
  - by apply handleTileClick_inv.
  - destruct (gameStarted s); by eauto.
Qed.

Lemma run_inv (es : list Event) (s : State) :
  cityInv s -> exists s', run es s = Some s' /\ cityInv s'.
Proof.
  revert s. induction es as [|e es IH]; intros s Hinv; simpl; [by eauto|].
  destruct (step_inv e s Hinv) as (s1 & -> & Hinv1). simpl. by apply IH.
Qed.

Lemma initialState_inv (riverY : Z -> Z) (variance : Z -> Z -> Z) :
  (forall x y, inBounds x y -> 0 <= variance x y < 5000) ->
  cityInv (initialState riverY variance).
Proof.
  intros Hv. split; [|split]; simpl.
  - apply createInitialGrid_wf.
  - apply createInitialGrid_Forall. intros x y Hb.
    pose proof (initialTile_price riverY variance x y). specialize (Hv x y Hb).
    lia.
  - unfold INITIAL_MONEY. lia.
Qed.

(** C10: from the initial state (money 50000, every random price variance
    in [0, 5000)), no sequence of clicks, tool selections, ticks, timer
    firings and news arrivals throws, and money is never negative after
    it. *)
Theorem money_never_negative (riverY : Z -> Z) (variance : Z -> Z -> Z)
    (es : list Event) :
  (forall x y, inBounds x y -> 0 <= variance x y < 5000) ->
  exists s, run es (initialState riverY variance) = Some s
            /\ 0 <= money (stats s).
Proof.
  intros Hv.
  destruct (run_inv es (initialState riverY variance)) as (s & Hrun & Hinv);
    [by apply initialState_inv|].
  exists s. split; [done|]. apply Hinv.
Qed.

Lemma inBounds_checks (x y : Z) :
  inBounds x y ->
  (x <? 0) || (x >=? GRID_SIZE) || (y <? 0) || (y >=? GRID_SIZE) = false.
Proof. unfold inBounds. intros [Hx Hy]. lia. Qed.

Lemma money_never_negative_witness :
  (forall x y, inBounds x y -> 0 <= noVariance x y < 5000)
  /\ exists s,
       run [EStart; ESelectTool Land; EClick 15 12; ESelectTool TrainStation;
            EClick 15 12; ETick; ESelectTool None_; EClick 15 12; EDayTimer]
           (initialState sineRiver noVariance) = Some s
       /\ 0 <= money (stats s).
Proof.
  split.
  - intros x y _. unfold noVariance. lia.
  - apply money_never_negative. intros x y _. unfold noVariance. lia.
Defined.

(** C5: a click with any tool other than Land on an in-bounds, unowned tile
    is rejected: it does not throw, the stats (so the money) and the whole
    grid (so the clicked tile) are unchanged, and the only effect is the
    "not owned" message appended to the news feed while the game runs. *)
Theorem unowned_tile_rejects_tools (s : State) (x y : Z)
    (tool : BuildingType) (t : TileData) :
  inBounds x y -> getTile (grid s) x y = Some t -> owned t = false ->
  tool <> Land ->
  exists s', applyClick x y tool s = Some s'
    /\ money (stats s') = money (stats s)
    /\ stats s' = stats s
    /\ getTile (grid s') x y = Some t
    /\ grid s' = grid s
    /\ newsFeed s' = if gameStarted s
                     then sliceLast 12 (newsFeed s)
                          ++ [mkNews MsgNotOwned negative]
                     else newsFeed s.
Proof.
  intros Hb Ht Ho Htool. unfold applyClick, handleTileClick.
  cbn [gameStarted selectedTool grid setSelectedTool].
  destruct (gameStarted s) eqn:Hg; cbn [negb].
  - rewrite inBounds_checks, Ht by done. cbn [mbind option_bind].
    rewrite bool_decide_eq_false_2 by done.
    unfold buildTool. rewrite Ho. cbn [negb].
    eexists. split; [reflexivity|]. done.
  - eexists. split; [reflexivity|]. done.
Qed.

Lemma unowned_tile_rejects_tools_witness :
  let s := stateAfter [EStart] freshCity in
  let t := mkTile 15 12 None_ false false false 6500 in
  (inBounds 15 12 /\ getTile (grid s) 15 12 = Some t /\ owned t = false
   /\ Residential <> Land)
  /\ exists s', applyClick 15 12 Residential s = Some s'
       /\ money (stats s') = money (stats s)
       /\ stats s' = stats s
       /\ getTile (grid s') 15 12 = Some t
       /\ grid s' = grid s
       /\ newsFeed s' = if gameStarted s
                        then sliceLast 12 (newsFeed s)
                             ++ [mkNews MsgNotOwned negative]
                        else newsFeed s.
Proof.
  split.
  - split; [vm_compute; repeat split; congruence|].
    split; [reflexivity|]. split; [reflexivity|discriminate].
  - apply unowned_tile_rejects_tools;
      [vm_compute; repeat split; congruence|reflexivity|reflexivity
      |discriminate].
Defined.

Lemma withOwned_round_trip (t : TileData) :
  owned t = false -> withOwned false (withOwned true t) = t.
Proof. destruct t; simpl; by intros ->. Qed.

(** C4: on a started game with a full grid, buying an empty, dry, unowned
    tile of price [p >= 1] that has an owned orthogonal neighbour, with
    money at least [p], and selling it at once: the first Land click debits
    [p] and sets [owned], the second credits [p / 2] (rounded down) and
    clears [owned]; the net change [p / 2 - p] is strictly negative and the
    tile is as it was. *)
Theorem land_round_trip_is_lossy (s : State) (x y : Z) (t : TileData) :
  gameStarted s = true -> wfGrid (grid s) -> inBounds x y ->
  getTile (grid s) x y = Some t ->
  isWater t = false -> buildingType t = None_ -> owned t = false ->
  1 <= landPrice t -> ownedNeighbor (grid s) x y ->
  landPrice t <= money (stats s) ->
  exists s1 s2,
    applyClick x y Land s = Some s1
    /\ money (stats s1) = money (stats s) - landPrice t
    /\ getTile (grid s1) x y = Some (withOwned true t)
    /\ applyClick x y Land s1 = Some s2
    /\ money (stats s2) = money (stats s1) + landPrice t / 2
    /\ getTile (grid s2) x y = Some t
    /\ money (stats s2) - money (stats s) = landPrice t / 2 - landPrice t
    /\ money (stats s2) < money (stats s).
Proof.
  intros Hg Hwf Hb Ht Hw Hn Ho Hp Hadj Hm.
  destruct (hasOwnedNeighbor_wf (grid s) x y Hwf Hb) as (b & Hhas & Hiff).
  apply Hiff in Hadj. subst b.
  assert (H1 : applyClick x y Land s
    = Some (addNewsItem (mkNews (MsgAcquired (landPrice t)) positive)
             (setStats (addMoney (- landPrice t))
               (setGrid (setTile (grid s) x y (withOwned true t))
                        (setSelectedTool Land s))))).
  { unfold applyClick, handleTileClick.
    cbn [gameStarted selectedTool grid setSelectedTool]. rewrite Hg.
    cbn [negb]. rewrite inBounds_checks, Ht by done.
    cbn [mbind option_bind]. rewrite bool_decide_eq_true_2 by done.
    unfold landTool. cbn [grid stats setSelectedTool].
    rewrite Hw, Ho, Hhas, orDefault_pos by done. cbn [mbind option_bind].
    destruct (Z.geb_spec (money (stats s)) (landPrice t)); [done|lia]. }
  eexists _, _. split; [exact H1|].
  assert (Ht1 : getTile (setTile (grid s) x y (withOwned true t)) x y
                = Some (withOwned true t)).
  { by eapply getTile_setTile_eq. }
  split; [cbn; lia|]. split; [exact Ht1|].
  assert (Hdiv : 0 <= landPrice t / 2 < landPrice t).
  { split; [apply Z.div_pos; lia|apply Z.div_lt; lia]. }
  split.
  { unfold applyClick, handleTileClick.
    cbn [gameStarted selectedTool grid setSelectedTool addNewsItem
         setNewsFeed setStats setGrid].
    rewrite Hg. cbn [negb]. rewrite inBounds_checks, Ht1 by done.
    cbn [mbind option_bind]. rewrite bool_decide_eq_true_2 by done.
    unfold landTool. cbn [isWater owned buildingType withOwned landPrice].
    rewrite Hw, Hn, bool_decide_eq_true_2, orDefault_pos by done.
    reflexivity. }
  split; [cbn; lia|]. split.
  { cbn. erewrite getTile_setTile_eq by exact Ht1.
    by rewrite withOwned_round_trip. }
  split; cbn; lia.
Qed.

Lemma land_round_trip_is_lossy_witness :
  let s := stateAfter [EStart] freshCity in
  let t := mkTile 15 12 None_ false false false 6500 in
  (gameStarted s = true /\ wfGrid (grid s) /\ inBounds 15 12
   /\ getTile (grid s) 15 12 = Some t
   /\ isWater t = false /\ buildingType t = None_ /\ owned t = false
   /\ 1 <= landPrice t /\ ownedNeighbor (grid s) 15 12
   /\ landPrice t <= money (stats s))
  /\ exists s1 s2,
       applyClick 15 12 Land s = Some s1
       /\ money (stats s1) = money (stats s) - landPrice t
       /\ getTile (grid s1) 15 12 = Some (withOwned true t)
       /\ applyClick 15 12 Land s1 = Some s2
       /\ money (stats s2) = money (stats s1) + landPrice t / 2
       /\ getTile (grid s2) 15 12 = Some t
       /\ money (stats s2) - money (stats s) = landPrice t / 2 - landPrice t
       /\ money (stats s2) < money (stats s).
Proof.
  assert (Hwf : wfGrid (grid (stateAfter [EStart] freshCity))).
  { apply createInitialGrid_wf. }
  assert (Hb : inBounds 15 12).
  { vm_compute. repeat split; congruence. }
  assert (Hadj : ownedNeighbor (grid (stateAfter [EStart] freshCity)) 15 12).
  { exists 14, 12, (mkTile 14 12 None_ true false false 6000).
    split; [vm_compute; repeat split; congruence|].
    split; [reflexivity|]. split; reflexivity. }
  assert (Hm : landPrice (mkTile 15 12 None_ false false false 6500)
               <= money (stats (stateAfter [EStart] freshCity))).
  { vm_compute. congruence. }
  split.
  - repeat split; try reflexivity; try apply Hwf; try apply Hb; try done.
  - apply land_round_trip_is_lossy; try reflexivity; try done.
Defined.

(** ** The rail fields *)

(** C2 (the code at the failing input): on the owned water tile (10,10) of
    the initial city, placing a Rail and then a Bridge both succeed (150 and
    1000 are debited), and the tile is left with [buildingType = Bridge] and
    [isRail = true]. *)
Theorem bridge_over_rail_leaves_isRail :
  exists s t,
    run [EStart; ESelectTool Rail; EClick 10 10; ESelectTool Bridge;
         EClick 10 10] freshCity = Some s
    /\ money (stats s) = INITIAL_MONEY - 150 - 1000
    /\ getTile (grid s) 10 10 = Some t
    /\ isRail t = true /\ buildingType t = Bridge
    /\ ~ (isRail t = true -> buildingType t = Rail).
Proof.
  eexists _, _. split; [vm_compute; reflexivity|].
  split; [reflexivity|]. split; [vm_compute; reflexivity|].
  split; [reflexivity|]. split; [reflexivity|].
  intros H. specialize (H eq_refl). discriminate.
Qed.

(** A bulldoze succeeds on an owned dry tile that holds a building (on water
    the terrain rule rejects the tool); it replaces the tile by one with no
    building and no rail flag, and debits the demolition cost. *)
Lemma bulldoze_clears_both (s : State) (x y : Z) (t : TileData) :
  gameStarted s = true -> inBounds x y -> getTile (grid s) x y = Some t ->
  owned t = true -> isWater t = false -> buildingType t <> None_ ->
  demolishCost <= money (stats s) ->
  exists s', applyClick x y None_ s = Some s'
    /\ getTile (grid s') x y = Some (withBuildingRail None_ false t)
    /\ money (stats s') = money (stats s) - demolishCost.
Proof.
  intros Hg Hb Ht Ho Hw Hn Hm. unfold applyClick, handleTileClick.
  cbn [gameStarted selectedTool grid setSelectedTool]. rewrite Hg.
  cbn [negb]. rewrite inBounds_checks, Ht by done.
  cbn [mbind option_bind]. rewrite bool_decide_eq_false_2 by done.
  unfold buildTool. rewrite Ho, Hw. cbn [negb andb].
  rewrite (bool_decide_eq_false_2 (None_ = Bridge)) by done.
  rewrite bool_decide_eq_true_2 by done.
  rewrite (bool_decide_eq_false_2 _ Hn). cbn [negb stats setSelectedTool].
  destruct (Z.geb_spec (money (stats s)) demolishCost); [|lia].
  eexists. split; [reflexivity|]. split.
  - cbn. by eapply getTile_setTile_eq.
  - cbn. lia.
Qed.

Lemma buildTool_railShape (x y : Z) (tool : BuildingType) (t : TileData)
    (s : State) :
  gridForall railShape (grid s) -> getTile (grid s) x y = Some t ->
  gridForall railShape (grid (buildTool x y tool t s)).
Proof.
  intros Hinv Ht.
  pose proof (getTile_Forall _ _ _ _ _ Hinv Ht) as Hshape.
  unfold buildTool.
  destruct (negb (owned t)); [done|].
  destruct (_ && _ && _); [done|].
  destruct (_ && _); [done|].
  case_bool_decide as Htool.
  - destruct (negb _); [|done]. destruct (_ >=? _); [|done].
    apply setTile_Forall; [done|]. intros Hr. cbn in Hr. discriminate.
  - destruct (_ || _ || _) eqn:Hbuild; [|done].
    destruct (_ >=? _); [|done].
    apply setTile_Forall; [done|].
    destruct (bool_decide (tool = Rail)) eqn:Hrail.
    + unfold railShape. cbn. intros _. by left.
    + unfold railShape in *. cbn. intros Hr. specialize (Hshape Hr).
      cbn [andb orb] in Hbuild.
      apply orb_true_iff in Hbuild as [Hbuild|Hbuild].
      * rewrite orb_false_r in Hbuild. apply bool_decide_eq_true in Hbuild.
        destruct Hshape as [Hs|[Hs _]]; congruence.
      * apply andb_true_iff in Hbuild as [Hbr Hw].
        apply bool_decide_eq_true in Hbr. by right.
Qed.

Lemma landTool_railShape (x y : Z) (t : TileData) (s s' : State) :
  gridForall railShape (grid s) -> getTile (grid s) x y = Some t ->
  landTool x y t s = Some s' -> gridForall railShape (grid s').
Proof.
  intros Hinv Ht.
  pose proof (getTile_Forall _ _ _ _ _ Hinv Ht) as Hshape.
  unfold landTool.
  destruct (isWater t); [by intros [= <-]|].
  destruct (owned t).
  - case_bool_decide; intros [= <-]; [|done].
    apply setTile_Forall; [done|]. exact Hshape.
  - destruct (hasOwnedNeighbor _ _ _) as [[]|]; cbn; [| |done].
    + destruct (_ >=? _); intros [= <-]; [|done].
      apply setTile_Forall; [done|]. exact Hshape.
    + by intros [= <-].
Qed.

Lemma step_railShape (e : Event) (s s' : State) :
  gridForall railShape (grid s) -> step e s = Some s' ->
  gridForall railShape (grid s').
Proof.
  intros Hinv. destruct e; simpl.
  - destruct (gameStarted s); by intros [= <-].
  - destruct (gameStarted s); by intros [= <-].
  - destruct (gameStarted s); by intros [= <-].
  - destruct (gameStarted s); by intros [= <-].
  - unfold handleTileClick. destruct (negb _); [by intros [= <-]|].
    destruct (_ || _ || _ || _); [by intros [= <-]|].
    destruct (getTile (grid s) x y) as [t|] eqn:Ht; [|done].
    cbn [mbind option_bind]. case_bool_decide.
    + by apply landTool_railShape.
    + intros [= <-]. by apply buildTool_railShape.
  - destruct (gameStarted s); by intros [= <-].
Qed.

(** In every state reached from the initial one, a tile flagged [isRail]
    holds a Rail, or a Bridge on water: the Bridge laid over a Rail is the
    only way the two fields part. *)
Lemma reachable_railShape (riverY : Z -> Z) (variance : Z -> Z -> Z)
    (es : list Event) (s : State) :
  run es (initialState riverY variance) = Some s ->
  gridForall railShape (grid s).
Proof.
  assert (Hgen : forall es s0 s, gridForall railShape (grid s0) ->
            run es s0 = Some s -> gridForall railShape (grid s)).
  { clear. induction es as [|e es IH]; intros s0 s Hinv; simpl.
    - by intros [= <-].
    - destruct (step e s0) as [s1|] eqn:Hstep; [|done]. simpl.
      apply IH. by eapply step_railShape. }
  apply Hgen. simpl. apply createInitialGrid_Forall.
  intros x y _ Hr. cbn in Hr. discriminate.
Qed.

(** ** The day/night clock *)

Lemma Qtrunc_unit (v : Q) (n : Z) :
  (0 <= n)%Z -> (inject_Z n <= v)%Q -> (v < inject_Z (n + 1))%Q ->
  Qtrunc v = n.
Proof.
  intros Hn Hlo Hhi.
  assert (Hv : (0 <= v)%Q).
  { apply Qle_trans with (inject_Z n); [|done].
    change 0%Q with (inject_Z 0). by rewrite <- Zle_Qle. }
  assert (Hq : Qtrunc v = Qfloor v).
  { unfold Qtrunc, Qfloor. destruct v as [a b]. unfold Qle in Hv.
    simpl in *. apply Z.quot_div_nonneg; lia. }
  rewrite Hq.
  pose proof (Qfloor_le v) as Hfl. pose proof (Qlt_floor v) as Hfu.
  assert (Qfloor v < n + 1)%Z.
  { rewrite Zlt_Qlt. eapply Qle_lt_trans; eauto. }
  assert (n < Qfloor v + 1)%Z.
  { rewrite Zlt_Qlt. eapply Qle_lt_trans; eauto. }
  lia.
Qed.

Lemma dayStep_cases (q : Q) :
  (0 <= q)%Q -> (q < 1)%Q ->
  ((q + (1 # 1000) < 1)%Q /\ (dayStep q == q + (1 # 1000))%Q)
  \/ ((1 <= q + (1 # 1000))%Q /\ (dayStep q == q + (1 # 1000) - 1)%Q).
Proof.
  intros H0 H1. unfold dayStep, mod1.
  destruct (Qlt_le_dec (q + (1 # 1000)) 1) as [Hlt|Hge].
  - left. split; [done|].
    assert (Hz : Qtrunc (q + (1 # 1000)) = 0%Z).
    { apply Qtrunc_unit; [lia| |].
      - change (0 <= q + (1 # 1000))%Q. lra.
      - change (q + (1 # 1000) < 1)%Q. lra. }
    rewrite Hz. change (inject_Z 0) with 0%Q. lra.
  - right. split; [done|].
    assert (Hz : Qtrunc (q + (1 # 1000)) = 1%Z).
    { apply Qtrunc_unit; [lia| |].
      - change (1 <= q + (1 # 1000))%Q. lra.
      - change (q + (1 # 1000) < 2)%Q. lra. }
    rewrite Hz. change (inject_Z 1) with 1%Q. lra.
Qed.

Lemma dayStep_range (q : Q) :
  (0 <= q)%Q -> (q < 1)%Q -> (0 <= dayStep q)%Q /\ (dayStep q < 1)%Q.
Proof.
  intros H0 H1.
  destruct (dayStep_cases q H0 H1) as [[Hc ->]|[Hc ->]]; lra.
Qed.

(** After [n] firings the clock reads the fractional part of
    [q + n / 1000]. *)
Lemma dayStep_iter (q : Q) (n : nat) :
  (0 <= q)%Q -> (q < 1)%Q ->
  exists k : Z,
    (0 <= k)%Z
    /\ (Nat.iter n dayStep q == q + inject_Z (Z.of_nat n) * (1 # 1000) - inject_Z k)%Q
    /\ (0 <= Nat.iter n dayStep q)%Q /\ (Nat.iter n dayStep q < 1)%Q.
Proof.
  intros H0 H1. induction n as [|n (k & Hk & Heq & Hlo & Hhi)].
  - exists 0%Z. split; [lia|]. split; [|by split].
    change (q == q + 0 * (1 # 1000) - 0)%Q. lra.
  - change (Nat.iter (S n) dayStep q) with (dayStep (Nat.iter n dayStep q)).
    assert (Hn : (inject_Z (Z.of_nat (S n)) == inject_Z (Z.of_nat n) + 1)%Q).
    { rewrite Nat2Z.inj_succ, <- Z.add_1_r, inject_Z_plus. reflexivity. }
    destruct (dayStep_range _ Hlo Hhi) as [Hlo' Hhi'].
    destruct (dayStep_cases _ Hlo Hhi) as [[Hc Hs]|[Hc Hs]].
    + exists k. repeat split; try done. rewrite Hs, Heq, Hn. ring.
    + exists (k + 1)%Z. repeat split; try done; [lia|].
      rewrite Hs, Heq, Hn, inject_Z_plus. change (inject_Z 1) with 1%Q. ring.
Qed.

Lemma dayStep_iter_small (q : Q) (n : nat) :
  (0 <= q)%Q -> (q + inject_Z (Z.of_nat n) * (1 # 1000) < 1)%Q ->
  (Nat.iter n dayStep q == q + inject_Z (Z.of_nat n) * (1 # 1000))%Q.
Proof.
  intros H0 Hn.
  assert (Hnn : (0 <= inject_Z (Z.of_nat n))%Q).
  { change 0%Q with (inject_Z 0). rewrite <- Zle_Qle. lia. }
  assert (H1 : (q < 1)%Q) by lra.
  destruct (dayStep_iter q n H0 H1) as (k & Hk & Heq & Hlo & Hhi).
  assert (k = 0)%Z as ->.
  { assert (inject_Z k < inject_Z 1)%Q as Hk1.
    { change (inject_Z 1) with 1%Q. lra. }
    rewrite <- Zlt_Qlt in Hk1. lia. }
  rewrite Heq. change (inject_Z 0) with 0%Q. lra.
Qed.

Lemma dayStep_iter_1000 (q : Q) :
  (0 <= q)%Q -> (q < 1)%Q -> (Nat.iter 1000 dayStep q == q)%Q.
Proof.
  intros H0 H1.
  destruct (dayStep_iter q 1000 H0 H1) as (k & Hk & Heq & Hlo & Hhi).
  change (inject_Z (Z.of_nat 1000)) with 1000%Q in Heq.
  assert (k = 1)%Z as ->.
  { assert (inject_Z k < inject_Z 2)%Q as Hk2.
    { change (inject_Z 2) with 2%Q. lra. }
    assert (inject_Z 0 < inject_Z k)%Q as Hk0.
    { change (inject_Z 0) with 0%Q. lra. }
    rewrite <- Zlt_Qlt in Hk2, Hk0. lia. }
  rewrite Heq. change (inject_Z 1) with 1%Q. lra.
Qed.

Lemma dayStep_iter_no_return (q : Q) (n : nat) :
  (0 <= q)%Q -> (q < 1)%Q -> (0 < n < 1000)%nat ->
  ~ (Nat.iter n dayStep q == q)%Q.
Proof.
  intros H0 H1 Hn Hret.
  destruct (dayStep_iter q n H0 H1) as (k & Hk & Heq & Hlo & Hhi).
  assert (H0n : (inject_Z 0 < inject_Z (Z.of_nat n))%Q).
  { rewrite <- Zlt_Qlt. lia. }
  assert (Hn1 : (inject_Z (Z.of_nat n) < inject_Z 1000)%Q).
  { rewrite <- Zlt_Qlt. lia. }
  change (inject_Z 0) with 0%Q in H0n.
  change (inject_Z 1000) with 1000%Q in Hn1.
  assert (inject_Z 0 < inject_Z k)%Q as Hk0.
  { change (inject_Z 0) with 0%Q. lra. }
  assert (inject_Z k < inject_Z 1)%Q as Hk1.
  { change (inject_Z 1) with 1%Q. lra. }
  rewrite <- Zlt_Qlt in Hk0, Hk1. lia.
Qed.

Lemma run_dayTimer (n : nat) (s : State) :
  gameStarted s = true ->
  exists s', run (replicate n EDayTimer) s = Some s'
    /\ timeOfDay s' = Nat.iter n dayStep (timeOfDay s)
    /\ grid s' = grid s /\ stats s' = stats s
    /\ gameStarted s' = true.
Proof.
  revert s. induction n as [|n IH]; intros s Hg.
  - exists s. by repeat split.
  - cbn [replicate run step]. rewrite Hg. cbn [mbind option_bind].
    destruct (IH (setTimeOfDay dayStep s) Hg) as (s' & Hrun & Ht & Hrest).
    exists s'. split; [done|]. split; [|done].
    rewrite Ht. cbn [timeOfDay setTimeOfDay]. by rewrite Nat.iter_succ_r.
Qed.

Lemma landTool_timeOfDay (x y : Z) (t : TileData) (s s' : State) :
  landTool x y t s = Some s' ->
  timeOfDay s' = timeOfDay s /\ gameStarted s' = gameStarted s.
Proof.
  unfold landTool.
  repeat (case_match; try done); cbn; try by intros [= <-].
  all: destruct (hasOwnedNeighbor _ _ _) as [[]|]; cbn; try done.
  all: repeat case_match; by intros [= <-].
Qed.

Lemma buildTool_timeOfDay (x y : Z) (tool : BuildingType) (t : TileData)
    (s : State) :
  timeOfDay (buildTool x y tool t s) = timeOfDay s
  /\ gameStarted (buildTool x y tool t s) = gameStarted s.
Proof. unfold buildTool. by repeat case_match. Qed.

Lemma step_timeOfDay (e : Event) (s s' : State) :
  step e s = Some s' ->
  (0 <= timeOfDay s)%Q /\ (timeOfDay s < 1)%Q ->
  (0 <= timeOfDay s')%Q /\ (timeOfDay s' < 1)%Q.
Proof.
  intros Hstep [H0 H1]. destruct e; simpl in Hstep.
  - destruct (gameStarted s); by injection Hstep as <-.
  - destruct (gameStarted s); injection Hstep as <-; [|done].
    by apply dayStep_range.
  - destruct (gameStarted s); by injection Hstep as <-.
  - destruct (gameStarted s); by injection Hstep as <-.
  - unfold handleTileClick in Hstep.
    destruct (negb _); [by injection Hstep as <-|].
    destruct (_ || _ || _ || _); [by injection Hstep as <-|].
    destruct (getTile (grid s) x y) as [t|]; [|done].
    cbn [mbind option_bind] in Hstep. case_bool_decide.
    + apply landTool_timeOfDay in Hstep as [-> _]. done.
    + injection Hstep as <-.
      destruct (buildTool_timeOfDay x y (selectedTool s) t s) as [-> _].
      done.
  - destruct (gameStarted s); by injection Hstep as <-.
Qed.

Lemma reachable_timeOfDay (riverY : Z -> Z) (variance : Z -> Z -> Z)
    (es : list Event) (s : State) :
  run es (initialState riverY variance) = Some s ->
  (0 <= timeOfDay s)%Q /\ (timeOfDay s < 1)%Q.
Proof.
  assert (Hgen : forall es s0 s,
            (0 <= timeOfDay s0)%Q /\ (timeOfDay s0 < 1)%Q ->
            run es s0 = Some s -> (0 <= timeOfDay s)%Q /\ (timeOfDay s < 1)%Q).
  { clear. induction es as [|e es IH]; intros s0 s Hinv; simpl.
    - by intros [= <-].
    - destruct (step e s0) as [s1|] eqn:Hstep; [|done]. simpl.
      apply IH. by eapply step_timeOfDay. }
  apply Hgen. simpl. lra.
Qed.

(** C6 (as stated) fails: after 200 firings of the 200 ms timer, that is
    after 40 seconds, the clock started at 0 reads 1/5; it has not gone
    round. *)
Lemma day_cycle_200_firings_counterexample :
  exists s, run (replicate 200 EDayTimer) startedCity = Some s
    /\ 200 * DAY_INTERVAL_MS = 40000
    /\ (timeOfDay s == 1 # 5)%Q
    /\ ~ (timeOfDay s == 0)%Q.
Proof.
  assert (Hg : gameStarted startedCity = true) by (vm_compute; reflexivity).
  assert (H0 : timeOfDay startedCity = 0%Q) by (vm_compute; reflexivity).
  destruct (run_dayTimer 200 startedCity Hg) as (s & Hrun & Ht & _).
  exists s. split; [exact Hrun|]. split; [reflexivity|].
  assert (Hq : (timeOfDay s == 1 # 5)%Q).
  { rewrite Ht, H0. rewrite dayStep_iter_small.
    - change (inject_Z (Z.of_nat 200)) with 200%Q. lra.
    - lra.
    - change (inject_Z (Z.of_nat 200)) with 200%Q. lra. }
  split; [done|]. rewrite Hq. lra.
Qed.

(** C6 (amended): in every state reached from the initial one in which the
    game is started, the time of day is in [0, 1); a firing of the 200 ms
    timer adds 1/1000 to it and subtracts 1 when the sum reaches 1, so it
    stays in [0, 1); the clock is back at its value after exactly 1000
    firings and at none before, that is after 200 000 ms. *)
Theorem day_clock_cycle (riverY : Z -> Z) (variance : Z -> Z -> Z)
    (es : list Event) (s : State) :
  run es (initialState riverY variance) = Some s -> gameStarted s = true ->
  ((0 <= timeOfDay s)%Q /\ (timeOfDay s < 1)%Q)
  /\ (exists s', step EDayTimer s = Some s'
        /\ ((timeOfDay s' == timeOfDay s + (1 # 1000))%Q
            \/ (timeOfDay s' == timeOfDay s + (1 # 1000) - 1)%Q)
        /\ (0 <= timeOfDay s')%Q /\ (timeOfDay s' < 1)%Q)
  /\ (forall n : nat, exists s_n,
        run (replicate n EDayTimer) s = Some s_n
        /\ (0 <= timeOfDay s_n)%Q /\ (timeOfDay s_n < 1)%Q
        /\ (n = 1000%nat -> (timeOfDay s_n == timeOfDay s)%Q)
        /\ ((0 < n < 1000)%nat -> ~ (timeOfDay s_n == timeOfDay s)%Q))
  /\ 1000 * DAY_INTERVAL_MS = 200000.
Proof.
  intros Hrun Hg.
  destruct (reachable_timeOfDay _ _ _ _ Hrun) as [H0 H1].
  split; [done|]. split; [|split; [|done]].
  - exists (setTimeOfDay dayStep s). cbn [step]. rewrite Hg.
    split; [done|]. cbn [timeOfDay setTimeOfDay].
    destruct (dayStep_range _ H0 H1) as [Hlo Hhi].
    split; [|done].
    destruct (dayStep_cases _ H0 H1) as [[_ Hs]|[_ Hs]]; [by left|by right].
  - intros n. destruct (run_dayTimer n s Hg) as (s_n & Hr & Ht & _).
    exists s_n. split; [done|]. rewrite Ht.
    destruct (dayStep_iter _ n H0 H1) as (k & _ & _ & Hlo & Hhi).
    split; [done|]. split; [done|]. split.
    + intros ->. by apply dayStep_iter_1000.
    + intros Hn. by apply dayStep_iter_no_return.
Qed.

Lemma day_clock_cycle_witness :
  let es := [EStart; EDayTimer; ETick; EDayTimer] in
  let s := stateAfter es freshCity in
  (run es (initialState sineRiver noVariance) = Some s
   /\ gameStarted s = true)
  /\ ((0 <= timeOfDay s)%Q /\ (timeOfDay s < 1)%Q)
  /\ (exists s', step EDayTimer s = Some s'
        /\ ((timeOfDay s' == timeOfDay s + (1 # 1000))%Q
            \/ (timeOfDay s' == timeOfDay s + (1 # 1000) - 1)%Q)
        /\ (0 <= timeOfDay s')%Q /\ (timeOfDay s' < 1)%Q)
  /\ (forall n : nat, exists s_n,
        run (replicate n EDayTimer) s = Some s_n
        /\ (0 <= timeOfDay s_n)%Q /\ (timeOfDay s_n < 1)%Q
        /\ (n = 1000%nat -> (timeOfDay s_n == timeOfDay s)%Q)
        /\ ((0 < n < 1000)%nat -> ~ (timeOfDay s_n == timeOfDay s)%Q))
  /\ 1000 * DAY_INTERVAL_MS = 200000.
Proof.
  split.
  - split; vm_compute; reflexivity.
  - apply (day_clock_cycle sineRiver noVariance
             [EStart; EDayTimer; ETick; EDayTimer]);
      vm_compute; reflexivity.
Defined.

(** * The agent movement systems *)

(** ** Train *)

(** C7 (the code at the failing input): with the three rail tiles
    A = (12,12), B = (13,12), C = (14,12), the fold of the specification
    turns a progress of 9/4 into 7/4 on the return leg; the frame callback
    keeps it at 9/4, draws the train on C (world x = 2) with no travel
    vector and no reversal; and at a progress of exactly 3 it reads
    [railTiles[3]] and throws. *)
Theorem train_folds_one_tile_late :
  let rails := railTiles (grid railCity) in
  rails = [mkPos 12 12; mkPos 13 12; mkPos 14 12]
  /\ specPingPong 3 (9 # 4) = (7 # 4, true)
  /\ pingPong 3 (9 # 4) = (9 # 4, false)
  /\ (exists pose,
        trainFrame true rails 0 (3 # 4) = Ran (9 # 4) pose
        /\ (fst (trainWorld pose) == 2)%Q /\ (snd (trainWorld pose) == 0)%Q
        /\ trainDir pose = (0, 0) /\ trainReversed pose = false)
  /\ pingPong 3 3 = (3%Q, false)
  /\ trainFrame true rails 0 1 = Threw 3%Q.
Proof.
  split; [vm_compute; reflexivity|]. split; [vm_compute; reflexivity|].
  split; [vm_compute; reflexivity|]. split.
  - eexists. split; [vm_compute; reflexivity|]. by repeat split.
  - split; vm_compute; reflexivity.
Qed.

Lemma Qrem_small (a b : Q) :
  (0 < b)%Q -> (0 <= a)%Q -> (a < b)%Q -> (Qrem a b == a)%Q.
Proof.
  intros Hb Ha Hab. unfold Qrem.
  assert (Hz : Qtrunc (a / b) = 0%Z).
  { apply Qtrunc_unit; [lia| |].
    - change (inject_Z 0) with 0%Q. apply Qle_shift_div_l; [done|]. lra.
    - change (inject_Z (0 + 1)) with 1%Q. apply Qlt_shift_div_r; [done|].
      lra. }
  rewrite Hz. change (inject_Z 0) with 0%Q. ring.
Qed.

Lemma Qgtb_true (a b : Q) : Qgtb a b = true <-> (b < a)%Q.
Proof.
  unfold Qgtb. split.
  - intros H. apply Qnot_le_lt. intros Hle%Qle_bool_iff.
    rewrite Hle in H. discriminate.
  - intros H. destruct (Qle_bool a b) eqn:E; [|done].
    apply Qle_bool_iff in E. by apply Qlt_not_le in H.
Qed.

Lemma Qgtb_false (a b : Q) : Qgtb a b = false <-> (a <= b)%Q.
Proof.
  unfold Qgtb. rewrite negb_false_iff. apply Qle_bool_iff.
Qed.

(** Where the two folds part, for any number of rail tiles: a progress
    between the last index [count - 1] and [count] is on the return leg for
    the specification, and is neither folded nor reversed by the frame
    callback. *)
Lemma pingPong_differs_from_spec (count : Z) (p : Q) :
  2 <= count -> (inject_Z (count - 1) < p)%Q -> (p < inject_Z count)%Q ->
  ((fst (pingPong (inject_Z count) p) == p)%Q
   /\ snd (pingPong (inject_Z count) p) = false)
  /\ ((fst (specPingPong count p) == 2 * inject_Z (count - 1) - p)%Q
      /\ snd (specPingPong count p) = true).
Proof.
  intros Hc Hlo Hhi.
  assert (Hc1 : (inject_Z (count - 1) == inject_Z count - 1)%Q).
  { unfold Z.sub. rewrite inject_Z_plus, inject_Z_opp. reflexivity. }
  assert (Hc2 : (2 <= inject_Z count)%Q).
  { change 2%Q with (inject_Z 2). by rewrite <- Zle_Qle. }
  split.
  - assert (Hr : (Qrem p (inject_Z count * 2) == p)%Q).
    { apply Qrem_small; lra. }
    assert (Hg : Qgtb (Qrem p (inject_Z count * 2)) (inject_Z count) = false).
    { apply Qgtb_false. lra. }
    unfold pingPong. cbn [fst snd]. by rewrite Hg.
  - assert (Hr : (Qrem p (2 * inject_Z (count - 1)) == p)%Q).
    { apply Qrem_small; lra. }
    assert (Hg : Qgtb (Qrem p (2 * inject_Z (count - 1)))
                      (inject_Z (count - 1)) = true).
    { apply Qgtb_true. lra. }
    unfold specPingPong. cbn [fst snd]. rewrite Hg. split; [|done].
    by rewrite Hr.
Qed.

(** ** Systems with a small graph *)

Lemma trafficFrame_small (sqrt : Q -> Q) (mounted : bool) (roads : list Pos)
    (cars : list Car) (rnd : nat -> nat) :
  (length roads < 2)%nat -> trafficFrame sqrt mounted roads cars rnd = Skipped.
Proof.
  intros H. unfold trafficFrame.
  apply Nat.ltb_lt in H. rewrite H. by rewrite orb_true_r.
Qed.

Lemma trafficRender_small (roads : list Pos) :
  (length roads < 2)%nat -> trafficRender roads = None.
Proof. intros H. unfold trafficRender. apply Nat.ltb_lt in H. by rewrite H. Qed.

Lemma trainFrame_small (mounted : bool) (rails : list Pos) (p delta : Q) :
  (length rails < 2)%nat -> trainFrame mounted rails p delta = Skipped.
Proof.
  intros H. unfold trainFrame.
  apply Nat.ltb_lt in H. rewrite H. by rewrite orb_true_r.
Qed.

Lemma trainRender_empty (rails : list Pos) :
  length rails = 0%nat -> trainRender rails = None.
Proof. intros H. unfold trainRender. by rewrite H. Qed.

Lemma populationFrame_none (sqrt : Q -> Q) (mounted : bool)
    (walkable : list Pos) (agents : list Agent) (draw : nat -> TileDraw) :
  populationFrame sqrt mounted 0 walkable agents draw = Skipped.
Proof. unfold populationFrame. by rewrite orb_true_r. Qed.

(** C8 (as stated) fails for the train and for the pedestrians: one rail
    tile is fewer than two, yet the train group is rendered; and in a city
    built up to its last walkable tile, 42 pedestrians are seeded, rendered
    and moved in every frame. *)
Lemma small_graph_counterexample :
  (length (railTiles (grid oneRailCity)) = 1%nat
   /\ trainRender (railTiles (grid oneRailCity)) = Some tt)
  /\ (length (walkableTiles (grid denseCity)) = 1%nat
      /\ agentCount (population (stats denseCity)) = 42
      /\ populationRender (agentCount (population (stats denseCity)))
         = Some 42
      /\ exists agents agents' poses,
           populationEffect 42 (walkableTiles (grid denseCity))
                            (fun _ => plainSpawn) [] = Some agents
           /\ length agents = 42%nat
           /\ populationFrame intSqrt true 42 (walkableTiles (grid denseCity))
                              agents (fun _ => noJitter)
              = Ran agents' poses).
Proof.
  split; [split; vm_compute; reflexivity|].
  split; [vm_compute; reflexivity|]. split; [vm_compute; reflexivity|].
  split; [vm_compute; reflexivity|].
  eexists _, _, _. split; [vm_compute; reflexivity|].
  split; vm_compute; reflexivity.
Qed.

(** C8 (amended): the vehicles with fewer than two road tiles render
    nothing and their frame callback returns at once; the train's frame
    callback returns at once with fewer than two rail tiles, and nothing is
    rendered when there is no rail tile; the pedestrians render nothing and
    their frame callback returns at once when the agent count
    [min (floor (population / 2)) 300] is 0. None of these throws. *)
Theorem idle_system_is_noop (sqrt : Q -> Q) (sys : MovementSystem)
    (g : Grid) (pop : Z) :
  frameGate sys g pop ->
  (forall i : FrameInput, frameSkips sqrt sys g pop i)
  /\ (renderGate sys g pop -> rendersNothing sys g pop).
Proof.
  destruct sys; cbn [frameGate renderGate frameSkips rendersNothing graphSize].
  - intros H. split; [intros i; by apply trafficFrame_small|].
    intros _. by apply trafficRender_small.
  - intros H. split; [intros i; by apply trainFrame_small|].
    apply trainRender_empty.
  - intros ->. split; [intros i; apply populationFrame_none|done].
Qed.

Lemma idle_system_is_noop_witness :
  frameGate Vehicles (grid startedCity) 0
  /\ (forall i : FrameInput,
        frameSkips intSqrt Vehicles (grid startedCity) 0 i)
  /\ (renderGate Vehicles (grid startedCity) 0 ->
      rendersNothing Vehicles (grid startedCity) 0).
Proof.
  assert (H : frameGate Vehicles (grid startedCity) 0).
  { cbn [frameGate graphSize].
    replace (length (roadTiles (grid startedCity))) with 0%nat
      by (vm_compute; reflexivity).
    lia. }
  split; [exact H|]. exact (idle_system_is_noop intSqrt Vehicles _ 0 H).
Defined.

(** ** Vehicles *)

Lemma Qgeb_true (a b : Q) : Qgeb a b = true <-> (b <= a)%Q.
Proof. unfold Qgeb. apply Qle_bool_iff. Qed.

Lemma Qgeb_false (a b : Q) : Qgeb a b = false <-> (a < b)%Q.
Proof.
  unfold Qgeb. split.
  - intros H. apply Qnot_le_lt. intros Hle%Qle_bool_iff. congruence.
  - intros H. destruct (Qle_bool b a) eqn:E; [|done].
    apply Qle_bool_iff in E. by apply Qlt_not_le in H.
Qed.

Lemma lookup_mod_is_Some {A} (l : list A) (r : nat) :
  (0 < length l)%nat -> is_Some (l !! (r mod length l)%nat).
Proof.
  intros H. apply lookup_lt_is_Some_2, Nat.mod_upper_bound. lia.
Qed.

Lemma Pos_eta (p : Pos) : mkPos (posX p) (posY p) = p.
Proof. by destruct p. Qed.

(** The target choice of a car does not throw, whatever the road list, as
    long as it is not empty. *)
Lemma stepCar_total (roads : list Pos) (c : Car) (r : nat) :
  (0 < length roads)%nat -> is_Some (stepCar roads c r).
Proof.
  intros Hlen. unfold stepCar.
  destruct (Qgeb _ _); [|done].
  destruct (0 <? length _)%nat eqn:Hn.
  - apply Nat.ltb_lt in Hn.
    set (neighbors := filter _ roads) in *.
    set (valid := if (1 <? length neighbors)%nat then _ else _).
    destruct (0 <? length valid)%nat eqn:Hv.
    + apply Nat.ltb_lt in Hv.
      destruct (lookup_mod_is_Some valid r Hv) as [next ->]. done.
    + destruct (lookup_lt_is_Some_2 neighbors 0 Hn) as [next ->]. done.
  - destruct (lookup_mod_is_Some roads r Hlen) as [rnd ->]. done.
Qed.

(** With no road neighbour of the tile reached, the car is put on the road
    tile the draw selects. *)
Lemma stepCar_teleports (roads : list Pos) (c : Car) (r : nat) :
  (0 < length roads)%nat -> (1 <= progress c + speed c)%Q ->
  filter (fun t => isNeighbor (tarX c) (tarY c) t) roads = [] ->
  exists t, roads !! (r mod length roads)%nat = Some t
    /\ stepCar roads c r
       = Some (mkCar (posX t) (posY t) (posX t) (posY t) 0 (speed c)).
Proof.
  intros Hlen Hp Hn. unfold stepCar.
  apply Qgeb_true in Hp. rewrite Hp, Hn. cbn [length Nat.ltb Nat.leb].
  destruct (lookup_mod_is_Some roads r Hlen) as [t Ht].
  exists t. split; [done|]. by rewrite Ht.
Qed.

Lemma stepCar_inv (roads : list Pos) (c c' : Car) (r : nat) :
  carInv roads c -> stepCar roads c r = Some c' -> carInv roads c'.
Proof.
  intros (Hc & Ht & Hp0 & Hp1 & Hs0 & Hs1). unfold stepCar.
  destruct (Qgeb _ _) eqn:Hge.
  - destruct (0 <? length _)%nat eqn:Hn.
    + set (neighbors := filter _ roads) in *.
      set (valid := if (1 <? length neighbors)%nat then _ else _).
      assert (Hsub : forall p, p ∈ valid -> p ∈ roads).
      { intros p. unfold valid. destruct (1 <? _)%nat.
        - intros [_ Hin%list_elem_of_filter]%list_elem_of_filter.
          apply Hin.
        - intros Hin%list_elem_of_filter. apply Hin. }
      destruct (if (0 <? length valid)%nat then _ else _) as [next|] eqn:Hnext;
        [|done].
      cbn [mbind option_bind]. intros [= <-].
      assert (Hin : next ∈ roads).
      { destruct (0 <? length valid)%nat.
        - apply Hsub. by eapply list_elem_of_lookup_2.
        - apply list_elem_of_lookup_2 in Hnext.
          apply list_elem_of_filter in Hnext. apply Hnext. }
      unfold carInv, carCur, carTar. cbn.
      rewrite Pos_eta. repeat split; try done; lra.
    + destruct (roads !! _) as [rnd|] eqn:Hrnd; [|done].
      cbn [mbind option_bind]. intros [= <-].
      apply list_elem_of_lookup_2 in Hrnd.
      unfold carInv, carCur, carTar. cbn.
      rewrite Pos_eta. repeat split; try done; lra.
  - intros [= <-]. apply Qgeb_false in Hge.
    unfold carInv, carCur, carTar. cbn. repeat split; try done; lra.
Qed.

Lemma frameLoop_Forall {A V : Type} (P : A -> Prop)
    (body : nat -> A -> option (A * V)) (i : nat) (l : list A) :
  (forall i a, P a -> exists a' v, body i a = Some (a', v) /\ P a') ->
  Forall P l ->
  exists l' vs, frameLoop body i l = Ran l' vs
    /\ Forall P l' /\ length l' = length l.
Proof.
  intros Hbody Hl. revert i.
  induction Hl as [|a l Ha Hl IH]; intros i; cbn [frameLoop].
  - by exists [], [].
  - destruct (Hbody i a Ha) as (a' & v & -> & Ha').
    destruct (IH (S i)) as (l' & vs & -> & Hl' & Hlen).
    exists (a' :: l'), (v :: vs). split; [done|]. split; [by constructor|].
    cbn. by rewrite Hlen.
Qed.

Lemma trafficFrame_inv (sqrt : Q -> Q) (mounted : bool) (roads : list Pos)
    (cars : list Car) (rnd : nat -> nat) :
  (2 <= length roads)%nat -> Forall (carInv roads) cars ->
  trafficFrame sqrt mounted roads cars rnd = Skipped
  \/ exists cars' poses,
       trafficFrame sqrt mounted roads cars rnd = Ran cars' poses
       /\ Forall (carInv roads) cars' /\ length cars' = length cars.
Proof.
  intros Hlen Hcars. unfold trafficFrame.
  destruct (_ || _ || _); [by left|]. right.
  destruct (frameLoop_Forall (carInv roads) (carBody sqrt roads rnd) 0
              (take (carCount roads) cars)) as (l & vs & -> & Hl & Hlen').
  - intros i c Hc. unfold carBody.
    destruct (stepCar_total roads c (rnd i)) as [c' Hstep]; [lia|].
    rewrite Hstep. cbn. eexists _, _. split; [done|].
    by eapply stepCar_inv.
  - by apply Forall_take.
  - eexists _, _. split; [done|]. split.
    + apply Forall_app. split; [done|]. by apply Forall_drop.
    + rewrite length_app, Hlen', <- length_app. by rewrite take_drop.
Qed.

Lemma trafficFrames_inv (sqrt : Q -> Q) (mounted : bool) (roads : list Pos)
    (rnd : nat -> nat -> nat) (n k : nat) (cars : list Car) :
  (2 <= length roads)%nat -> Forall (carInv roads) cars ->
  exists cars', trafficFrames sqrt mounted roads rnd k n cars = Some cars'
    /\ Forall (carInv roads) cars' /\ length cars' = length cars.
Proof.
  intros Hlen. revert k cars.
  induction n as [|n IH]; intros k cars Hcars; cbn [trafficFrames].
  - by exists cars.
  - destruct (trafficFrame_inv sqrt mounted roads cars (rnd k) Hlen Hcars)
      as [->|(cars1 & poses & -> & Hinv1 & Hlen1)].
    + by apply IH.
    + destruct (IH (S k) cars1 Hinv1) as (cars' & -> & Hinv' & Hlen').
      exists cars'. split; [done|]. split; [done|]. congruence.
Qed.

Lemma mapM_seedCar (roads : list Pos) (startIdx : nat -> nat)
    (startSpeed : nat -> Q) (l : list nat) :
  (0 < length roads)%nat ->
  (forall i, (1 # 100 <= startSpeed i)%Q /\ (startSpeed i <= 3 # 100)%Q) ->
  exists cars,
    mapM (fun i => seedCar roads (startIdx i) (startSpeed i)) l = Some cars
    /\ Forall (carInv roads) cars /\ length cars = length l.
Proof.
  intros Hlen Hspeed. induction l as [|i l (cars & Hcars & Hinv & Hlen')].
  - exists []. split; [reflexivity|]. split; [constructor|reflexivity].
  - destruct (lookup_mod_is_Some roads (startIdx i) Hlen) as [t Ht].
    exists (mkCar (posX t) (posY t) (posX t) (posY t) 1 (startSpeed i) :: cars).
    split; [|split].
    + apply mapM_Some. constructor; [|by apply mapM_Some].
      unfold seedCar. by rewrite Ht.
    + constructor; [|done]. apply list_elem_of_lookup_2 in Ht.
      destruct (Hspeed i).
      unfold carInv, carCur, carTar. cbn. rewrite Pos_eta.
      repeat split; try done; lra.
    + cbn. by rewrite Hlen'.
Qed.

Lemma trafficEffect_inv (roads : list Pos) (startIdx : nat -> nat)
    (startSpeed : nat -> Q) (old : list Car) :
  (2 <= length roads)%nat ->
  (forall i, (1 # 100 <= startSpeed i)%Q /\ (startSpeed i <= 3 # 100)%Q) ->
  exists cars, trafficEffect roads startIdx startSpeed old = Some cars
    /\ Forall (carInv roads) cars /\ length cars = carCount roads.
Proof.
  intros Hlen Hspeed. unfold trafficEffect.
  destruct (length roads <? 2)%nat eqn:E; [apply Nat.ltb_lt in E; lia|].
  destruct (mapM_seedCar roads startIdx startSpeed (seq 0 (carCount roads)))
    as (cars & Hcars & Hinv & Hlen'); [lia|done|].
  exists cars. split; [done|]. split; [done|]. by rewrite Hlen', length_seq.
Qed.

Lemma orOne_zero (v : Q) : (v == 0)%Q -> orOne v = 1%Q.
Proof. intros H. unfold orOne. apply Qeq_bool_iff in H. by rewrite H. Qed.

Lemma orOne_one (v : Q) : (v == 1)%Q -> (orOne v == 1)%Q.
Proof.
  intros H. unfold orOne. destruct (Qeq_bool v 0) eqn:E; [|done].
  apply Qeq_bool_iff in E. rewrite H in E. discriminate.
Qed.

(** The lateral offset of a car that stands still or moves by one tile: 0.15
    along the left-hand normal of its travel vector. *)
Lemma carOffset_unit (sqrt : Q -> Q) (c : Car) :
  (sqrt 0 == 0)%Q -> (sqrt 1 == 1)%Q ->
  (tarX c - curX c) * (tarX c - curX c)
  + (tarY c - curY c) * (tarY c - curY c) <= 1 ->
  (fst (carOffset sqrt c) == - (15 # 100) * inject_Z (tarY c - curY c))%Q
  /\ (snd (carOffset sqrt c) == (15 # 100) * inject_Z (tarX c - curX c))%Q.
Proof.
  intros H0 H1 Hd. unfold carOffset.
  set (dx := tarX c - curX c) in *. set (dy := tarY c - curY c) in *.
  assert ((dx = 0 /\ dy = 0) \/ (dx = 1 /\ dy = 0) \/ (dx = -1 /\ dy = 0)
          \/ (dx = 0 /\ dy = 1) \/ (dx = 0 /\ dy = -1))
    as [[-> ->]|[[-> ->]|[[-> ->]|[[-> ->]|[-> ->]]]]] by nia;
    cbn [fst snd].
  - change (inject_Z 0 * inject_Z 0 + inject_Z 0 * inject_Z 0)%Q with 0%Q.
    rewrite (orOne_zero _ H0). split; reflexivity.
  - change (inject_Z 1 * inject_Z 1 + inject_Z 0 * inject_Z 0)%Q with 1%Q.
    rewrite (orOne_one _ H1). split; reflexivity.
  - change (inject_Z (-1) * inject_Z (-1) + inject_Z 0 * inject_Z 0)%Q
      with 1%Q.
    rewrite (orOne_one _ H1). split; reflexivity.
  - change (inject_Z 0 * inject_Z 0 + inject_Z 1 * inject_Z 1)%Q with 1%Q.
    rewrite (orOne_one _ H1). split; reflexivity.
  - change (inject_Z 0 * inject_Z 0 + inject_Z (-1) * inject_Z (-1))%Q
      with 1%Q.
    rewrite (orOne_one _ H1). split; reflexivity.
Qed.

Lemma isNeighbor_spec (cx cy : Z) (t : Pos) :
  isNeighbor cx cy t = true ->
  (Z.abs (posX t - cx) = 1 /\ posY t = cy)
  \/ (Z.abs (posY t - cy) = 1 /\ posX t = cx).
Proof. unfold isNeighbor. lia. Qed.

Lemma elem_of_pair (a b p : Pos) : p ∈ [a; b] -> p = a \/ p = b.
Proof.
  intros [->|H]%elem_of_cons; [by left|].
  apply elem_of_cons in H as [->|H]; [by right|]. by apply elem_of_nil in H.
Qed.

(** A car whose two tiles are among two adjacent road tiles: where it is
    interpolated and where it is drawn. *)
Lemma car_confined (sqrt : Q -> Q) (a b : Pos) (c : Car) :
  (sqrt 0 == 0)%Q -> (sqrt 1 == 1)%Q ->
  isNeighbor (posX a) (posY a) b = true ->
  carInv [a; b] c ->
  carCur c ∈ [a; b] /\ carTar c ∈ [a; b]
  /\ onSegment a b (carGridPos c)
  /\ (fst (carDrawnAt sqrt c)
      == fst (carGridPos c) - (15 # 100) * inject_Z (tarY c - curY c))%Q
  /\ (snd (carDrawnAt sqrt c)
      == snd (carGridPos c) + (15 # 100) * inject_Z (tarX c - curX c))%Q.
Proof.
  intros H0 H1 Hadj (Hc & Ht & Hp0 & Hp1 & _).
  split; [done|]. split; [done|].
  apply isNeighbor_spec in Hadj.
  apply elem_of_pair in Hc. apply elem_of_pair in Ht.
  unfold carCur, carTar in Hc, Ht.
  assert (Hd : (tarX c - curX c) * (tarX c - curX c)
               + (tarY c - curY c) * (tarY c - curY c) <= 1).
  { destruct a as [ax ay], b as [bx by_]. cbn in Hadj.
    destruct Hc as [[= -> ->]|[= -> ->]], Ht as [[= -> ->]|[= -> ->]]; nia. }
  split.
  - clear Hd. unfold onSegment, carGridPos, lerp.
    destruct c as [cx cy tx ty p v], a as [ax ay], b as [bx by_].
    cbn [fst snd posX posY curX curY tarX tarY progress] in *.
    destruct Hc as [[= -> ->]|[= -> ->]], Ht as [[= -> ->]|[= -> ->]].
    + exists 0%Q. split; [lra|]. split; [lra|]. split; ring.
    + exists p. split; [done|]. split; [done|].
      unfold Z.sub. rewrite !inject_Z_plus, !inject_Z_opp. split; ring.
    + exists (1 - p)%Q. split; [lra|]. split; [lra|].
      unfold Z.sub. rewrite !inject_Z_plus, !inject_Z_opp. split; ring.
    + exists 1%Q. split; [lra|]. split; [lra|].
      unfold Z.sub. rewrite !inject_Z_plus, !inject_Z_opp. split; ring.
  - destruct (carOffset_unit sqrt c H0 H1 Hd) as [Hx Hy].
    unfold carDrawnAt. destruct (carGridPos c) as [gx gy].
    destruct (carOffset sqrt c) as [offX offY]. cbn [fst snd] in *.
    rewrite Hx, Hy. split; ring.
Qed.

Lemma stepCar_picks (roads : list Pos) (c : Car) (j : nat) (t : Pos) :
  (1 <= progress c + speed c)%Q ->
  filter (fun t => isNeighbor (tarX c) (tarY c) t) roads = [] ->
  roads !! j = Some t ->
  stepCar roads c j
  = Some (mkCar (posX t) (posY t) (posX t) (posY t) 0 (speed c)).
Proof.
  intros Hp Hn Ht. unfold stepCar.
  apply Qgeb_true in Hp. rewrite Hp, Hn. cbn [length Nat.ltb Nat.leb].
  rewrite Nat.mod_small by (by eapply lookup_lt_Some). by rewrite Ht.
Qed.

(** C9 (as stated) fails: with the two road tiles (12,12) and (13,12) there
    are two vehicles, not one, and after the first frame the first of them
    is drawn at (12, 12.15), off the segment between the two tiles. *)
Lemma two_tile_road_counterexample :
  roadTiles (grid roadCity) = [mkPos 12 12; mkPos 13 12]
  /\ carCount (roadTiles (grid roadCity)) = 2%nat
  /\ exists cars0 cars1 poses c,
       trafficEffect (roadTiles (grid roadCity)) (fun i => i)
                     (fun _ => 3 # 100) [] = Some cars0
       /\ trafficFrame intSqrt true (roadTiles (grid roadCity)) cars0
                       (fun _ => 0%nat) = Ran cars1 poses
       /\ length cars1 = 2%nat
       /\ cars1 !! 0%nat = Some c
       /\ (snd (carDrawnAt intSqrt c) == 12 + (15 # 100))%Q
       /\ ~ onSegment (mkPos 12 12) (mkPos 13 12) (carDrawnAt intSqrt c).
Proof.
  split; [vm_compute; reflexivity|]. split; [vm_compute; reflexivity|].
  eexists _, _, _, _. split; [vm_compute; reflexivity|].
  split; [vm_compute; reflexivity|]. split; [reflexivity|].
  split; [reflexivity|]. split; [reflexivity|].
  intros (s & _ & _ & _ & Hy). cbn [posY] in Hy.
  assert (Hs : (inject_Z 12 + s * inject_Z (12 - 12) == 12)%Q).
  { change (inject_Z (12 - 12)) with 0%Q. change (inject_Z 12) with 12%Q.
    ring. }
  rewrite Hs in Hy. vm_compute in Hy. discriminate.
Qed.

(** C9 (amended): when the road tiles of the grid are two orthogonally
    adjacent tiles [a] and [b], two vehicles are seeded (not one); after any
    number of frames on the unchanged grid, with any random draws, no frame
    has thrown, and each vehicle's current and target tiles are [a] or [b],
    its interpolated position lies on the segment between them, and it is
    drawn 0.15 to the left of its travel vector from there (so off the
    segment while it moves). On any road list, a vehicle that reaches a tile
    with no road neighbour does not throw: it is put on the road tile that
    the random draw selects. *)
Theorem two_tile_traffic_confined (sqrt : Q -> Q) (g : Grid) (a b : Pos)
    (startIdx : nat -> nat) (startSpeed : nat -> Q) (rnd : nat -> nat -> nat)
    (n : nat) :
  roadTiles g = [a; b] ->
  isNeighbor (posX a) (posY a) b = true ->
  (forall i, (1 # 100 <= startSpeed i)%Q /\ (startSpeed i <= 3 # 100)%Q) ->
  (sqrt 0 == 0)%Q -> (sqrt 1 == 1)%Q ->
  trafficRender (roadTiles g) = Some 2%nat
  /\ (exists cars0 cars,
        trafficEffect (roadTiles g) startIdx startSpeed [] = Some cars0
        /\ trafficFrames sqrt true (roadTiles g) rnd 0 n cars0 = Some cars
        /\ length cars = 2%nat
        /\ Forall (fun c =>
             carCur c ∈ [a; b] /\ carTar c ∈ [a; b]
             /\ onSegment a b (carGridPos c)
             /\ (fst (carDrawnAt sqrt c)
                 == fst (carGridPos c)
                    - (15 # 100) * inject_Z (tarY c - curY c))%Q
             /\ (snd (carDrawnAt sqrt c)
                 == snd (carGridPos c)
                    + (15 # 100) * inject_Z (tarX c - curX c))%Q) cars)
  /\ (forall (roads : list Pos) (c : Car) (r : nat),
        (2 <= length roads)%nat ->
        is_Some (stepCar roads c r)
        /\ ((1 <= progress c + speed c)%Q ->
            filter (fun t => isNeighbor (tarX c) (tarY c) t) roads = [] ->
            exists t, roads !! (r mod length roads)%nat = Some t
              /\ stepCar roads c r
                 = Some (mkCar (posX t) (posY t) (posX t) (posY t) 0
                               (speed c)))).
Proof.
  intros Hroads Hadj Hspeed H0 H1. rewrite Hroads.
  split; [reflexivity|]. split.
  - destruct (trafficEffect_inv [a; b] startIdx startSpeed [])
      as (cars0 & Heff & Hinv0 & Hlen0); [cbn; lia|done|].
    destruct (trafficFrames_inv sqrt true [a; b] rnd n 0 cars0)
      as (cars & Hrun & Hinv & Hlen); [cbn; lia|done|].
    exists cars0, cars. split; [done|]. split; [done|].
    split; [by rewrite Hlen, Hlen0|].
    eapply Forall_impl; [exact Hinv|]. intros c Hc.
    by apply car_confined.
  - intros roads c r Hlen. split.
    + apply stepCar_total. lia.
    + intros Hp Hn. apply stepCar_teleports; [lia|done|done].
Qed.

Lemma two_tile_traffic_confined_witness :
  let g := grid roadCity in
  let a := mkPos 12 12 in
  let b := mkPos 13 12 in
  let startIdx := fun i : nat => i in
  let startSpeed := fun _ : nat => (3 # 100)%Q in
  let rnd := fun k i : nat => (k + i)%nat in
  (roadTiles g = [a; b]
   /\ isNeighbor (posX a) (posY a) b = true
   /\ (forall i, (1 # 100 <= startSpeed i)%Q /\ (startSpeed i <= 3 # 100)%Q)
   /\ (intSqrt 0 == 0)%Q /\ (intSqrt 1 == 1)%Q)
  /\ trafficRender (roadTiles g) = Some 2%nat
  /\ (exists cars0 cars,
        trafficEffect (roadTiles g) startIdx startSpeed [] = Some cars0
        /\ trafficFrames intSqrt true (roadTiles g) rnd 0 100 cars0 = Some cars
        /\ length cars = 2%nat
        /\ Forall (fun c =>
             carCur c ∈ [a; b] /\ carTar c ∈ [a; b]
             /\ onSegment a b (carGridPos c)
             /\ (fst (carDrawnAt intSqrt c)
                 == fst (carGridPos c)
                    - (15 # 100) * inject_Z (tarY c - curY c))%Q
             /\ (snd (carDrawnAt intSqrt c)
                 == snd (carGridPos c)
                    + (15 # 100) * inject_Z (tarX c - curX c))%Q) cars)
  /\ (forall (roads : list Pos) (c : Car) (r : nat),
        (2 <= length roads)%nat ->
        is_Some (stepCar roads c r)
        /\ ((1 <= progress c + speed c)%Q ->
            filter (fun t => isNeighbor (tarX c) (tarY c) t) roads = [] ->
            exists t, roads !! (r mod length roads)%nat = Some t
              /\ stepCar roads c r
                 = Some (mkCar (posX t) (posY t) (posX t) (posY t) 0
                               (speed c)))).
Proof.
  assert (Hr : roadTiles (grid roadCity) = [mkPos 12 12; mkPos 13 12])
    by (vm_compute; reflexivity).
  assert (Hs : forall i : nat,
             (1 # 100 <= 3 # 100)%Q /\ (3 # 100 <= 3 # 100)%Q)
    by (intros _; split; lra).
  split.
  - split; [exact Hr|]. split; [reflexivity|]. split; [exact Hs|].
    split; reflexivity.
  - apply (two_tile_traffic_confined intSqrt (grid roadCity) (mkPos 12 12)
             (mkPos 13 12) (fun i : nat => i) (fun _ : nat => (3 # 100)%Q)
             (fun k i : nat => (k + i)%nat) 100 Hr eq_refl Hs);
      reflexivity.
Defined.

(** * Further properties *)

(** ** What a click can do *)

Lemma landTool_cases (x y : Z) (t : TileData) (s s' : State) :
  selectedTool s = Land -> landTool x y t s = Some s' ->
  sameControls s s' /\ feedGrows s s'
  /\ ((grid s' = grid s /\ stats s' = stats s)
      \/ exists t' d,
           Transaction (grid s) x y (money (stats s)) Land t t' d
           /\ grid s' = setTile (grid s) x y t'
           /\ stats s' = addMoney d (stats s)).
Proof.
  intros Htool. unfold landTool.
  destruct (isWater t) eqn:Hw.
  { intros [= <-]. split; [done|]. split; [right; by eexists|by left]. }
  destruct (owned t) eqn:Ho.
  - case_bool_decide as Hb; intros [= <-].
    + split; [done|]. split; [right; by eexists|]. right.
      eexists _, _. split; [by apply TxSell|done].
    + split; [done|]. split; [right; by eexists|by left].
  - destruct (hasOwnedNeighbor (grid s) x y) as [[]|] eqn:Hn;
      cbn [mbind option_bind]; [| |done].
    + destruct (Z.geb_spec (money (stats s))
                  (orDefault (landPrice t) LAND_COST)); intros [= <-].
      * split; [done|]. split; [right; by eexists|]. right.
        eexists _, _. split; [by apply TxBuy|done].
      * split; [done|]. split; [right; by eexists|by left].
    + intros [= <-]. split; [done|]. split; [right; by eexists|by left].
Qed.

Lemma buildTool_cases (x y : Z) (tool : BuildingType) (t : TileData)
    (s : State) :
  tool <> Land ->
  let s' := buildTool x y tool t s in
  sameControls s s' /\ feedGrows s s'
  /\ ((grid s' = grid s /\ stats s' = stats s)
      \/ exists t' d,
           Transaction (grid s) x y (money (stats s)) tool t t' d
           /\ grid s' = setTile (grid s) x y t'
           /\ stats s' = addMoney d (stats s)).
Proof.
  intros Hland. unfold buildTool.
  destruct (owned t) eqn:Ho; cbn [negb];
    [|split; [done|]; split; [right; by eexists|by left]].
  destruct (isWater t) eqn:Hw; cbn [negb andb].
  - (* water *)
    destruct (decide (tool = Rail)) as [->|Hr].
    + rewrite !bool_decide_eq_true_2 by done. cbn [negb andb orb].
      rewrite (bool_decide_eq_false_2 (Rail = Bridge)) by done.
      rewrite (bool_decide_eq_false_2 (Rail = None_)) by done.
      rewrite orb_true_r. cbn [orb].
      destruct (Z.geb_spec (money (stats s)) (cost (BUILDINGS Rail))).
      * split; [done|]. split; [by left|]. right.
        eexists _, _. split; [apply TxRail; auto|done].
      * split; [done|]. split; [right; by eexists|by left].
    + rewrite (bool_decide_eq_false_2 (tool = Rail)) by done.
      cbn [negb andb orb].
      destruct (decide (tool = Bridge)) as [->|Hb].
      * rewrite !bool_decide_eq_true_2 by done. cbn [negb andb orb].
        rewrite (bool_decide_eq_false_2 (Bridge = None_)) by done.
        rewrite orb_true_r.
        destruct (Z.geb_spec (money (stats s)) (cost (BUILDINGS Bridge))).
        -- split; [done|]. split; [by left|]. right.
           eexists _, _. split; [apply TxPlace; auto; by split|done].
        -- split; [done|]. split; [right; by eexists|by left].
      * rewrite (bool_decide_eq_false_2 (tool = Bridge)) by done.
        cbn [negb]. split; [done|]. split; [right; by eexists|by left].
  - (* dry land *)
    destruct (decide (tool = Bridge)) as [->|Hb].
    { rewrite bool_decide_eq_true_2 by done.
      split; [done|]. split; [right; by eexists|by left]. }
    rewrite (bool_decide_eq_false_2 (tool = Bridge)) by done.
    rewrite !andb_false_r, !orb_false_r.
    destruct (decide (tool = None_)) as [->|Hn].
    + rewrite bool_decide_eq_true_2 by done.
      destruct (decide (buildingType t = None_)) as [Hbt|Hbt].
      * rewrite bool_decide_eq_true_2 by done. cbn [negb].
        split; [done|]. split; [by left|by left].
      * rewrite bool_decide_eq_false_2 by done. cbn [negb].
        destruct (Z.geb_spec (money (stats s)) demolishCost).
        -- split; [done|]. split; [by left|]. right.
           eexists _, _. split; [by apply TxBulldoze|done].
        -- split; [done|]. split; [right; by eexists|by left].
    + rewrite (bool_decide_eq_false_2 (tool = None_)) by done.
      destruct (decide (buildingType t = None_)) as [Hbt|Hbt].
      * rewrite (bool_decide_eq_true_2 _ Hbt).
        destruct (Z.geb_spec (money (stats s)) (cost (BUILDINGS tool))).
        -- split; [done|]. split; [by left|]. right.
           destruct (decide (tool = Rail)) as [->|Hr].
           ++ rewrite bool_decide_eq_true_2 by done.
              eexists _, _. split; [apply TxRail; auto|done].
           ++ rewrite (bool_decide_eq_false_2 (tool = Rail)) by done.
              eexists _, _. split; [|done].
              apply TxPlace; auto. split; intros; congruence.
        -- split; [done|]. split; [right; by eexists|by left].
      * rewrite (bool_decide_eq_false_2 _ Hbt).
        split; [done|]. split; [by left|by left].
Qed.

(** What a click does, case by case. *)
Lemma handleTileClick_cases (x y : Z) (s s' : State) :
  handleTileClick x y s = Some s' ->
  sameControls s s' /\ feedGrows s s'
  /\ ((grid s' = grid s /\ stats s' = stats s)
      \/ (gameStarted s = true /\ inBounds x y
          /\ exists t t' d,
               getTile (grid s) x y = Some t
               /\ Transaction (grid s) x y (money (stats s))
                              (selectedTool s) t t' d
               /\ grid s' = setTile (grid s) x y t'
               /\ stats s' = addMoney d (stats s))).
Proof.
  unfold handleTileClick.
  destruct (gameStarted s) eqn:Hg; cbn [negb];
    [|intros [= <-]; split; [done|]; split; [by left|by left]].
  destruct (_ || _ || _ || _) eqn:Hb;
    [intros [= <-]; split; [done|]; split; [by left|by left]|].
  assert (Hin : inBounds x y) by (unfold inBounds; lia).
  destruct (getTile (grid s) x y) as [t|] eqn:Ht; [|done].
  cbn [mbind option_bind]. case_bool_decide as Htool.
  - intros Hl. destruct (landTool_cases x y t s s' Htool Hl)
      as (Hc & Hf & [Hsame|(t' & d & Htx & Hgrid & Hstats)]).
    + split; [done|]. split; [done|]. by left.
    + split; [done|]. split; [done|]. right. split; [done|]. split; [done|].
      exists t, t', d. by rewrite Htool.
  - intros [= <-].
    destruct (buildTool_cases x y (selectedTool s) t s Htool)
      as (Hc & Hf & [Hsame|(t' & d & Htx & Hgrid & Hstats)]).
    + split; [done|]. split; [done|]. by left.
    + split; [done|]. split; [done|]. right. split; [done|]. split; [done|].
      by exists t, t', d.
Qed.






(** ** Invariants of runs *)

Lemma run_invariant (I : State -> Prop) :
  (forall e s s', I s -> step e s = Some s' -> I s') ->
  forall es s s', I s -> run es s = Some s' -> I s'.
Proof.
  intros Hstep es. induction es as [|e es IH]; intros s s' HI; simpl.
  - by intros [= <-].
  - destruct (step e s) as [s1|] eqn:E; [|done]. simpl.
    apply IH. by eapply Hstep.
Qed.

(** The events other than clicks and ticks leave grid, stats and tick
    counter alone. *)
Lemma step_cases (e : Event) (s s' : State) :
  step e s = Some s' ->
  (exists x y, e = EClick x y /\ handleTileClick x y s = Some s')
  \/ (e = ETick /\ gameStarted s = true /\ s' = economicTick s)
  \/ (grid s' = grid s /\ stats s' = stats s
      /\ tickCounter s' = tickCounter s /\ feedGrows s s').
Proof.
  assert (Hquiet : forall s1 : State,
            grid s1 = grid s -> stats s1 = stats s ->
            tickCounter s1 = tickCounter s -> feedGrows s s1 ->
            (exists x y, e = EClick x y /\ handleTileClick x y s = Some s1)
            \/ (e = ETick /\ gameStarted s = true /\ s1 = economicTick s)
            \/ (grid s1 = grid s /\ stats s1 = stats s
                /\ tickCounter s1 = tickCounter s /\ feedGrows s s1)).
  { intros s1 ? ? ? ?. right; right. done. }
  destruct e; simpl.
  - destruct (gameStarted s); intros [= <-]; apply Hquiet; try done;
      [by left|right; by eexists].
  - destruct (gameStarted s); intros [= <-]; apply Hquiet; try done;
      by left.
  - destruct (gameStarted s) eqn:Hg; intros [= <-].
    + right; left. done.
    + apply Hquiet; try done. by left.
  - destruct (gameStarted s); intros [= <-]; apply Hquiet; try done;
      by left.
  - intros H. left. by exists x, y.
  - destruct (gameStarted s); intros [= <-]; apply Hquiet; try done;
      [right; by eexists|by left].
Qed.

Lemma Transaction_sameTerrain (g : Grid) (x y funds : Z)
    (tool : BuildingType) (t t' : TileData) (d : Z) :
  Transaction g x y funds tool t t' d -> sameTerrain t t'.
Proof. by intros []. Qed.

Lemma step_grid (e : Event) (s s' : State) :
  step e s = Some s' ->
  grid s' = grid s
  \/ exists x y t t' d,
       e = EClick x y /\ inBounds x y /\ getTile (grid s) x y = Some t
       /\ Transaction (grid s) x y (money (stats s)) (selectedTool s) t t' d
       /\ grid s' = setTile (grid s) x y t'.
Proof.
  intros [(x & y & -> & Hc)|[(-> & _ & ->)|(Hg & _)]]%step_cases.
  - apply handleTileClick_cases in Hc
      as (_ & _ & [[Hg _]|(_ & Hb & t & t' & d & Ht & Htx & Hg & _)]).
    + by left.
    + right. by exists x, y, t, t', d.
  - by left.
  - by left.
Qed.

Lemma inBounds_to_nat (x y x' y' : Z) :
  inBounds x y -> inBounds x' y' -> (x', y') <> (x, y) ->
  Z.to_nat x' <> Z.to_nat x \/ Z.to_nat y' <> Z.to_nat y.
Proof.
  intros [Hx Hy] [Hx' Hy'] Hne.
  destruct (decide (x' = x)) as [->|]; [|left; lia].
  destruct (decide (y' = y)) as [->|]; [done|right; lia].
Qed.

(** X4: whatever the starting grid (of full size), after any run every
    tile is still there with the coordinates, the water flag and
    the land price it had: clicks never move, flood, drain or reprice a
    tile, and the grid keeps its size. *)
Theorem terrain_is_immutable (es : list Event) (s0 s : State) (x y : Z)
    (t0 : TileData) :
  wfGrid (grid s0) -> run es s0 = Some s ->
  getTile (grid s0) x y = Some t0 ->
  wfGrid (grid s)
  /\ exists t, getTile (grid s) x y = Some t /\ sameTerrain t0 t.
Proof.
  intros Hwf Hrun Ht0.
  pose (I := fun s : State =>
    wfGrid (grid s)
    /\ exists t, getTile (grid s) x y = Some t /\ sameTerrain t0 t).
  apply (run_invariant I) with (es := es) (s := s0);
    [|split; [done|]; exists t0; by repeat split|done].
  clear Hwf Hrun Ht0 s0 s.
  intros e s s' (Hwf & t & Ht & Hsame) Hstep. unfold I.
  apply step_grid in Hstep
    as [->|(x1 & y1 & t1 & t1' & d & -> & Hb1 & Ht1 & Htx & ->)].
  { split; [done|]. by exists t. }
  split; [by apply setTile_wf|].
  destruct (decide (Z.to_nat x = Z.to_nat x1 /\ Z.to_nat y = Z.to_nat y1))
    as [[Ex Ey]|Hne].
  - exists t1'.
    assert (Ht' : getTile (grid s) x y = getTile (grid s) x1 y1).
    { unfold getTile. by rewrite Ex, Ey. }
    assert (t1 = t) as -> by congruence.
    split.
    + unfold getTile, setTile. rewrite Ex, Ey.
      by apply (getTile_setTile_eq _ _ _ t).
    + apply Transaction_sameTerrain in Htx.
      destruct Hsame as (? & ? & ? & ?), Htx as (? & ? & ? & ?).
      unfold sameTerrain. repeat split; congruence.
  - exists t. split; [|done].
    rewrite getTile_setTile_ne; [done|].
    destruct (decide (Z.to_nat x = Z.to_nat x1)); [right|left]; tauto.
Qed.


Lemma Transaction_builtShape (g : Grid) (x y funds : Z)
    (tool : BuildingType) (t t' : TileData) (d : Z) :
  Transaction g x y funds tool t t' d -> builtShape t -> builtShape t'.
Proof.
  intros Htx (H1 & H2 & H3 & H4). unfold builtShape.
  destruct Htx as [? ? ? Hn|? ? ? ? ?|? ? ? ? ?|? ? ? ?|? ? ? ? Hw ? ?]; cbn.
  - rewrite Hn. repeat split; try done. intros _. by left.
  - done.
  - repeat split; try done. intros _. by left.
  - repeat split; try done. intros _. right. by left.
  - repeat split; try done.
    + intros Hwt. right; right. by apply Hw.
    + intros Hb. by apply Hw.
Qed.

(** X5: in every state reached from the initial one, a tile that holds a
    building is owned, a water tile holds nothing, a Rail or a Bridge, a
    Bridge stands on water, and no tile holds the Land tool as a building. *)
Theorem buildings_respect_terrain (riverY : Z -> Z) (variance : Z -> Z -> Z)
    (es : list Event) (s : State) (x y : Z) (t : TileData) :
  run es (initialState riverY variance) = Some s ->
  getTile (grid s) x y = Some t -> builtShape t.
Proof.
  intros Hrun Ht.
  assert (Hall : gridForall builtShape (grid s)).
  { apply (run_invariant (fun s => gridForall builtShape (grid s)))
      with (es := es) (s := initialState riverY variance); [| |done].
    - clear. intros e s s' Hinv Hstep.
      apply step_grid in Hstep
        as [->|(x & y & t & t' & d & -> & Hb & Ht & Htx & ->)]; [done|].
      apply setTile_Forall; [done|].
      eapply Transaction_builtShape; [exact Htx|].
      by eapply getTile_Forall.
    - apply createInitialGrid_Forall. intros x0 y0 _.
      unfold builtShape. cbn. repeat split; try done. intros _. by left. }
  by eapply getTile_Forall.
Qed.

(** X6: a building on water is there for good: once a water tile holds a
    building, no run empties it (the bulldoze tool is refused on water, and
    so is the Land tool). *)
Theorem water_buildings_are_permanent (es : list Event) (s0 s : State)
    (x y : Z) (t0 : TileData) :
  run es s0 = Some s -> getTile (grid s0) x y = Some t0 ->
  isWater t0 = true -> buildingType t0 <> None_ ->
  exists t, getTile (grid s) x y = Some t
    /\ isWater t = true /\ buildingType t <> None_.
Proof.
  intros Hrun Ht0 Hw0 Hb0.
  pose (I := fun s : State =>
    exists t, getTile (grid s) x y = Some t
      /\ isWater t = true /\ buildingType t <> None_).
  apply (run_invariant I) with (es := es) (s := s0); [|by exists t0|done].
  clear Hrun Ht0 Hw0 Hb0 s0 s t0.
  intros e s s' (t & Ht & Hw & Hb) Hstep. unfold I.
  apply step_grid in Hstep
    as [->|(x1 & y1 & t1 & t1' & d & -> & Hb1 & Ht1 & Htx & ->)].
  { by exists t. }
  destruct (decide (Z.to_nat x = Z.to_nat x1 /\ Z.to_nat y = Z.to_nat y1))
    as [[Ex Ey]|Hne].
  - assert (Ht' : getTile (grid s) x y = getTile (grid s) x1 y1).
    { unfold getTile. by rewrite Ex, Ey. }
    assert (t1 = t) as -> by congruence.
    exists t1'. split.
    + unfold getTile, setTile. rewrite Ex, Ey.
      by apply (getTile_setTile_eq _ _ _ t).
    + destruct Htx; cbn; try congruence; by split.
  - exists t. split; [|done].
    rewrite getTile_setTile_ne; [done|].
    destruct (decide (Z.to_nat x = Z.to_nat x1)); [right|left]; tauto.
Qed.

(** X3: a click changes no tile but the clicked one. *)
Theorem click_touches_one_tile (x y x' y' : Z) (s s' : State) :
  handleTileClick x y s = Some s' -> inBounds x' y' -> (x', y') <> (x, y) ->
  getTile (grid s') x' y' = getTile (grid s) x' y'.
Proof.
  intros Hc Hb' Hne.
  apply handleTileClick_cases in Hc
    as (_ & _ & [[-> _]|(_ & Hb & t & t' & d & _ & _ & -> & _)]); [done|].
  apply getTile_setTile_ne. by apply inBounds_to_nat.
Qed.

(** ** Ticks *)




Lemma cfgType_key (b : BuildingType) : cfgType (BUILDINGS b) = b.
Proof. by destruct b. Qed.

Lemma ownedCount_cons (b : BuildingType) (t : TileData)
    (l : list TileData) :
  ownedCount b (t :: l)
  = (if bool_decide (owned t = true /\ buildingType t = b) then 1 else 0)
    + ownedCount b l.
Proof.
  unfold ownedCount. rewrite filter_cons.
  case_bool_decide as H; destruct (decide _) as [H'|H']; try done; cbn.
  lia.
Qed.

Lemma ownedCount_cons' (b : BuildingType) (t : TileData)
    (l : list TileData) :
  ownedCount b (t :: l)
  = oneIf (owned t && bool_decide (buildingType t = b)) + ownedCount b l.
Proof.
  rewrite ownedCount_cons. f_equal. unfold oneIf.
  destruct (owned t); cbn [andb]; repeat case_bool_decide;
    try done; exfalso; intuition congruence.
Qed.

Lemma scanTile_counts (acc : TickScan) (t : TileData) :
  let one := fun b => oneIf (owned t && bool_decide (buildingType t = b)) in
  (forall b, b <> None_ -> b <> Land ->
     buildingCounts (scanTile acc t) b = buildingCounts acc b + one b)
  /\ dailyIncome (scanTile acc t)
     = dailyIncome acc + 15 * one Commercial + 40 * one Industrial
       + 200 * one TrainStation
  /\ dailyPopGrowth (scanTile acc t)
     = dailyPopGrowth acc + 5 * one Residential + one Park
       + 10 * one TrainStation.
Proof.
  destruct t as [x y bt o w r p], acc as [i g c]. cbn zeta.
  split; [|split].
  - intros b Hn Hl. unfold scanTile, oneIf.
    destruct o, bt, b; try done; cbn;
      repeat (case_bool_decide; try done; cbn); lia.
  - unfold scanTile, oneIf.
    destruct o, bt; cbn; repeat (case_bool_decide; try done; cbn); lia.
  - unfold scanTile, oneIf.
    destruct o, bt; cbn; repeat (case_bool_decide; try done; cbn); lia.
Qed.

(** What the scan of a tick adds up, for any list of tiles and any
    starting sums. *)
Lemma fold_scan_counts (l : list TileData) (acc : TickScan) :
  let r := fold_left scanTile l acc in
  (forall b, b <> None_ -> b <> Land ->
     buildingCounts r b = buildingCounts acc b + ownedCount b l)
  /\ dailyIncome r
     = dailyIncome acc + 15 * ownedCount Commercial l
       + 40 * ownedCount Industrial l + 200 * ownedCount TrainStation l
  /\ dailyPopGrowth r
     = dailyPopGrowth acc + 5 * ownedCount Residential l
       + ownedCount Park l + 10 * ownedCount TrainStation l.
Proof.
  revert acc. induction l as [|t l IH]; intros acc; cbn zeta.
  - unfold ownedCount. cbn. split; [intros; lia|lia].
  - cbn [fold_left]. destruct (IH (scanTile acc t)) as (Hc & Hi & Hp).
    destruct (scanTile_counts acc t) as (Hc1 & Hi1 & Hp1).
    split; [|split].
    + intros b Hn Hl.
      rewrite (Hc b Hn Hl), (Hc1 b Hn Hl), ownedCount_cons'. lia.
    + rewrite Hi, Hi1, !ownedCount_cons'. lia.
    + rewrite Hp, Hp1, !ownedCount_cons'. lia.
Qed.

(** X9: a tick leaves the grid alone and adds to the money 15 for every
    owned shop, 40 for every owned factory and 200 for every owned station;
    the growth it offers the population is 5 for every owned house, 1 for
    every owned park and 10 for every owned station, and the house count
    that caps it is the number of owned Residential tiles. Unowned buildings
    count for nothing. *)
Theorem tick_accounts (s : State) :
  let tiles := concat (grid s) in
  grid (economicTick s) = grid s
  /\ money (stats (economicTick s))
     = money (stats s) + 15 * ownedCount Commercial tiles
       + 40 * ownedCount Industrial tiles
       + 200 * ownedCount TrainStation tiles
  /\ dailyPopGrowth (scanGrid (grid s))
     = 5 * ownedCount Residential tiles + ownedCount Park tiles
       + 10 * ownedCount TrainStation tiles
  /\ resCount (grid s) = ownedCount Residential tiles.
Proof.
  cbn zeta. split; [done|].
  destruct (fold_scan_counts (concat (grid s)) emptyScan) as (Hc & Hi & Hp).
  fold (scanGrid (grid s)) in Hc, Hi, Hp. cbn in Hi, Hp.
  split; [|split].
  - cbn. rewrite Hi. lia.
  - rewrite Hp. lia.
  - unfold resCount. rewrite Hc by done. cbn. lia.
Qed.


(** ** The news feed *)

Lemma sliceLast_length {A} (n : nat) (l : list A) :
  length (sliceLast n l) = Nat.min n (length l).
Proof. unfold sliceLast. rewrite length_drop. lia. Qed.

Lemma step_feed (e : Event) (s s' : State) :
  step e s = Some s' -> feedGrows s s'.
Proof.
  intros [(x & y & -> & Hc)|[(-> & _ & ->)|(_ & _ & _ & Hf)]]%step_cases.
  - by apply handleTileClick_cases in Hc as (_ & Hf & _).
  - by left.
  - done.
Qed.

(** X11: the news feed never holds more than 13 items in any run from the
    initial state; adding an item keeps the newest 12 of the feed, in order,
    and puts the new item last. *)
Theorem news_feed_is_bounded (riverY : Z -> Z) (variance : Z -> Z -> Z)
    (es : list Event) (s : State) (item : NewsItem) :
  run es (initialState riverY variance) = Some s ->
  (length (newsFeed s) <= 13)%nat
  /\ newsFeed (addNewsItem item s) `suffix_of` newsFeed s ++ [item]
  /\ last (newsFeed (addNewsItem item s)) = Some item
  /\ length (newsFeed (addNewsItem item s))
     = Nat.min (length (newsFeed s) + 1) 13.
Proof.
  intros Hrun. split; [|split; [|split]].
  - revert Hrun.
    apply (run_invariant (fun s => (length (newsFeed s) <= 13)%nat));
      [|cbn; lia].
    clear. intros e s s' Hlen [->|[item ->]]%step_feed; [done|].
    rewrite length_app, sliceLast_length. cbn [length]. lia.
  - cbn. unfold sliceLast. apply suffix_app, suffix_drop.
  - cbn. by rewrite last_snoc.
  - cbn. rewrite length_app, sliceLast_length. cbn [length]. lia.
Qed.

(** ** Before the start *)

(** X12: until the start button is pressed nothing happens: clicks, tool
    selections, ticks, timer firings and news arrivals all leave an
    unstarted state exactly as it is. *)
Theorem nothing_happens_before_start (es : list Event) (s : State) :
  gameStarted s = false -> EStart ∉ es -> run es s = Some s.
Proof.
  intros Hg. induction es as [|e es IH]; intros Hnot; [done|].
  apply not_elem_of_cons in Hnot as [Hne Hnot].
  assert (Hstep : step e s = Some s).
  { destruct e; cbn; rewrite ?Hg; try done.
    unfold handleTileClick. by rewrite Hg. }
  cbn [run]. rewrite Hstep. cbn. by apply IH.
Qed.


(** * The agent movement systems, further *)

(** ** The tile lists *)

Lemma railCmp_key (a b : Pos) : railCmp a b = railKey a - railKey b.
Proof. unfold railCmp, railKey. lia. Qed.

Lemma insertRail_perm (a : Pos) (l : list Pos) : insertRail a l ≡ₚ a :: l.
Proof.
  induction l as [|b l IH]; cbn; [done|].
  destruct (railCmp a b <=? 0); [done|]. rewrite IH. apply Permutation_swap.
Qed.

Lemma insertRail_sorted (a : Pos) (l : list Pos) :
  StronglySorted (fun p q => railKey p <= railKey q) l ->
  StronglySorted (fun p q => railKey p <= railKey q) (insertRail a l).
Proof.
  induction 1 as [|b l Hl IH Hb]; cbn.
  - by repeat constructor.
  - rewrite railCmp_key. destruct (Z.leb_spec (railKey a - railKey b) 0).
    + constructor; [by constructor|]. constructor; [lia|].
      eapply Forall_impl; [exact Hb|]. cbn. intros; lia.
    + constructor; [done|]. rewrite insertRail_perm.
      constructor; [lia|done].
Qed.

Lemma insertRail_filter (k : Z) (a : Pos) (l : list Pos) :
  filter (fun p => railKey p = k) (insertRail a l)
  = filter (fun p => railKey p = k) (a :: l).
Proof.
  induction l as [|b l IH]; cbn [insertRail]; [done|].
  rewrite railCmp_key. destruct (Z.leb_spec (railKey a - railKey b) 0);
    [done|].
  rewrite (filter_cons _ b), IH, !(filter_cons _ a), (filter_cons _ b).
  destruct (decide (railKey b = k)), (decide (railKey a = k)); try done.
  lia.
Qed.

Lemma elem_of_concat {A} (x : A) (ls : list (list A)) :
  x ∈ concat ls <-> exists l, l ∈ ls /\ x ∈ l.
Proof.
  rewrite list_elem_of_In, in_concat. split.
  - intros (l & Hl & Hx). exists l. by rewrite !list_elem_of_In.
  - intros (l & Hl & Hx). exists l. by rewrite <- !list_elem_of_In.
Qed.

Lemma collectTiles_elem (keep : TileData -> bool) (g : Grid) (p : Pos) :
  p ∈ collectTiles keep g <->
  exists row t, row ∈ g /\ t ∈ row /\ keep t = true /\ tilePos t = p.
Proof.
  unfold collectTiles. rewrite list_elem_of_fmap. split.
  - intros (t & -> & [Hk Hin]%list_elem_of_filter).
    apply elem_of_concat in Hin as (row & Hrow & Ht).
    exists row, t. split; [done|]. split; [done|]. split; [|done].
    by apply Is_true_true.
  - intros (row & t & Hrow & Ht & Hk & <-). exists t. split; [done|].
    apply list_elem_of_filter. split; [by apply Is_true_true|].
    apply elem_of_concat. by exists row.
Qed.

(** X13: the rail list of the train is a rearrangement of the tiles that hold
    a Rail or carry the rail flag, in non-decreasing order of the key
    [10 x + y], and tiles with equal keys keep the order in which the grid
    lists them (the sort is stable). *)
Theorem railTiles_sorted_stable (g : Grid) (k : Z) (p : Pos) :
  (p ∈ railTiles g <->
   tileAt g (fun t => buildingType t = Rail \/ isRail t = true) p)
  /\ railTiles g ≡ₚ collectTiles isRailTile g
  /\ StronglySorted (fun p q => railKey p <= railKey q) (railTiles g)
  /\ filter (fun p => railKey p = k) (railTiles g)
     = filter (fun p => railKey p = k) (collectTiles isRailTile g).
Proof.
  assert (Hperm : railTiles g ≡ₚ collectTiles isRailTile g
    /\ StronglySorted (fun p q => railKey p <= railKey q) (railTiles g)
    /\ filter (fun p => railKey p = k) (railTiles g)
       = filter (fun p => railKey p = k) (collectTiles isRailTile g)).
  2: { split; [|done]. destruct Hperm as (Hp & _).
       rewrite Hp, collectTiles_elem. unfold tileAt, isRailTile.
       split; intros (row & t & Hrow & Ht & H1 & H2); exists row, t;
         (split; [done|]); (split; [done|]).
       - split; [done|]. apply orb_true_iff in H1 as [H1|H1];
           [left; by apply bool_decide_eq_true in H1|by right].
       - split; [|done]. apply orb_true_iff. destruct H2 as [H2|H2];
           [left; by apply bool_decide_eq_true|by right]. }
  unfold railTiles. generalize (collectTiles isRailTile g). intros l.
  induction l as [|a l (Hp & Hs & Hf)]; cbn [sortRail foldr].
  - split; [done|]. split; [constructor|done].
  - fold (sortRail l). split; [|split].
    + by rewrite insertRail_perm, Hp.
    + by apply insertRail_sorted.
    + rewrite insertRail_filter, !(filter_cons _ a), Hf. done.
Qed.


(** ** Vehicles on any road graph *)

Lemma trafficFrames_preserve (P : Car -> Prop) (sqrt : Q -> Q)
    (mounted : bool) (roads : list Pos) (rnd : nat -> nat -> nat) :
  (0 < length roads)%nat ->
  (forall c r c', P c -> stepCar roads c r = Some c' -> P c') ->
  forall (n k : nat) (cars : list Car),
    Forall P cars ->
    exists cars', trafficFrames sqrt mounted roads rnd k n cars = Some cars'
      /\ Forall P cars' /\ length cars' = length cars.
Proof.
  intros Hlen Hstep n.
  induction n as [|n IH]; intros k cars Hcars; cbn [trafficFrames].
  { by exists cars. }
  unfold trafficFrame. destruct (_ || _ || _); [by apply IH|].
  destruct (frameLoop_Forall P (carBody sqrt roads (rnd k)) 0
              (take (carCount roads) cars)) as (l & vs & -> & Hl & Hlen').
  - intros i c Hc. unfold carBody.
    destruct (stepCar_total roads c (rnd k i) Hlen) as [c' Hc'].
    rewrite Hc'. cbn. eexists _, _. split; [done|]. by eapply Hstep.
  - by apply Forall_take.
  - destruct (IH (S k) (l ++ drop (carCount roads) cars))
      as (cars' & -> & Hinv & Hlen2).
    + apply Forall_app. split; [done|]. by apply Forall_drop.
    + exists cars'. split; [done|]. split; [done|].
      rewrite Hlen2, length_app, Hlen', <- length_app. by rewrite take_drop.
Qed.

Lemma stepCar_moves (roads : list Pos) (c c' : Car) (r : nat) :
  carMoves roads c -> stepCar roads c r = Some c' -> carMoves roads c'.
Proof.
  intros [Hinv Hadj] Hstep. split; [by eapply stepCar_inv|].
  revert Hstep. unfold stepCar.
  destruct (Qgeb _ _).
  - destruct (0 <? length _)%nat.
    + set (neighbors := filter _ roads) in *.
      set (valid := if (1 <? length neighbors)%nat then _ else _).
      assert (Hsub : forall p, p ∈ valid -> p ∈ neighbors).
      { intros p. unfold valid. destruct (1 <? _)%nat; [|done].
        intros Hin%list_elem_of_filter. apply Hin. }
      destruct (if (0 <? length valid)%nat then _ else _) as [next|] eqn:Hnext;
        [|done].
      cbn [mbind option_bind]. intros [= <-].
      assert (Hin : next ∈ neighbors).
      { destruct (0 <? length valid)%nat.
        - apply Hsub. by eapply list_elem_of_lookup_2.
        - by eapply list_elem_of_lookup_2. }
      apply list_elem_of_filter in Hin as [Hn _]. apply Is_true_true in Hn.
      right. unfold carTar. cbn. by rewrite Pos_eta.
    + destruct (roads !! _) as [rnd|]; [|done].
      cbn [mbind option_bind]. intros [= <-]. by left.
  - intros [= <-]. exact Hadj.
Qed.

(** X15: on any grid with at least two road tiles, after the seeding and any
    number of frames with any random draws no frame has thrown, there are
    as many cars as road tiles, at most 30, and every car stands on and
    heads for tiles that hold a Road or a Bridge, its target being its own
    tile or an orthogonal neighbour of it, with a progress in [0, 1]. *)
Theorem cars_stay_on_roads (sqrt : Q -> Q) (g : Grid)
    (startIdx : nat -> nat) (startSpeed : nat -> Q) (rnd : nat -> nat -> nat)
    (n : nat) :
  (2 <= length (roadTiles g))%nat ->
  (forall i, (1 # 100 <= startSpeed i)%Q /\ (startSpeed i <= 3 # 100)%Q) ->
  exists cars0 cars,
    trafficEffect (roadTiles g) startIdx startSpeed [] = Some cars0
    /\ trafficFrames sqrt true (roadTiles g) rnd 0 n cars0 = Some cars
    /\ length cars = Nat.min (length (roadTiles g)) 30
    /\ Forall (fun c =>
         let road := fun t => buildingType t = Road \/ buildingType t = Bridge
         in tileAt g road (carCur c) /\ tileAt g road (carTar c)
            /\ (carTar c = carCur c
                \/ isNeighbor (curX c) (curY c) (carTar c) = true)
            /\ (0 <= progress c)%Q /\ (progress c <= 1)%Q) cars.
Proof.
  intros Hlen Hspeed.
  destruct (trafficEffect_inv (roadTiles g) startIdx startSpeed [] Hlen Hspeed)
    as (cars0 & Heff & Hinv0 & Hlen0).
  assert (Hmoves0 : Forall (carMoves (roadTiles g)) cars0).
  { unfold trafficEffect in Heff.
    destruct (length (roadTiles g) <? 2)%nat eqn:E;
      [apply Nat.ltb_lt in E; lia|].
    apply mapM_Some in Heff. apply Forall_forall. intros c Hc.
    split; [by eapply Forall_forall in Hinv0|].
    apply list_elem_of_lookup in Hc as [i Hi].
    destruct (Forall2_lookup_r _ _ _ _ _ Heff Hi) as (j & _ & Hseed).
    unfold seedCar in Hseed.
    destruct (roadTiles g !! _) as [p|]; [|done].
    injection Hseed as <-. by left. }
  assert (Hpos : (0 < length (roadTiles g))%nat) by lia.
  destruct (trafficFrames_preserve (carMoves (roadTiles g)) sqrt true
              (roadTiles g) rnd Hpos
              (fun c r c' => stepCar_moves (roadTiles g) c c' r)
              n 0%nat cars0 Hmoves0)
    as (cars & Hrun & Hinv & Hlen1).
  exists cars0, cars. split; [done|]. split; [done|].
  split; [by rewrite Hlen1, Hlen0|].
  eapply Forall_impl; [exact Hinv|]. cbn zeta.
  intros c ((Hc & Ht & Hp0 & Hp1 & _) & Hadj).
  assert (Hroad : forall p, p ∈ roadTiles g ->
            tileAt g (fun t => buildingType t = Road
                               \/ buildingType t = Bridge) p).
  { intros p (row & t & Hrow & Hin & Hk & Hp)%collectTiles_elem.
    exists row, t. split; [done|]. split; [done|]. split; [done|].
    unfold isRoadTile in Hk. apply orb_true_iff in Hk as [Hk|Hk];
      apply bool_decide_eq_true in Hk; [by left|by right]. }
  split; [by apply Hroad|]. split; [by apply Hroad|]. done.
Qed.

Lemma awayFrom_spec (px py : Z) (n : Pos) :
  awayFrom px py n = true <-> n <> mkPos px py.
Proof.
  unfold awayFrom. destruct n as [nx ny]. cbn. split.
  - intros H [= -> ->]. lia.
  - intros H. assert (nx <> px \/ ny <> py) as [|]; [|lia|lia].
    destruct (decide (nx = px)) as [->|]; [|by left].
    right. intros ->. done.
Qed.

(** X16: a car does not turn straight back when it has a choice: when the
    tile it reaches has a road neighbour other than the tile it just left,
    its new target is not the tile it just left. *)
Theorem car_avoids_reversal (roads : list Pos) (c c' : Car) (r : nat)
    (other : Pos) :
  (1 <= progress c + speed c)%Q ->
  other ∈ roads -> isNeighbor (tarX c) (tarY c) other = true ->
  other <> carCur c ->
  stepCar roads c r = Some c' ->
  carCur c' = carTar c /\ carTar c' <> carCur c
  /\ carTar c' ∈ roads
  /\ isNeighbor (tarX c) (tarY c) (carTar c') = true.
Proof.
  intros Hp Hin Hadj Hne. unfold stepCar.
  apply Qgeb_true in Hp. rewrite Hp.
  set (neighbors := filter _ roads).
  assert (Hon : other ∈ neighbors).
  { apply list_elem_of_filter. split; [by apply Is_true_true|done]. }
  assert (Hlen : (0 < length neighbors)%nat).
  { destruct neighbors; [by apply elem_of_nil in Hon|cbn; lia]. }
  apply Nat.ltb_lt in Hlen. rewrite Hlen.
  set (valid := if (1 <? length neighbors)%nat then _ else _).
  assert (Hvalid : forall p, p ∈ valid ->
            p ∈ neighbors /\ p <> carCur c).
  { intros p. unfold valid. destruct (1 <? length neighbors)%nat eqn:E.
    - intros [Ha Hn]%list_elem_of_filter. split; [done|].
      by apply awayFrom_spec, Is_true_true.
    - intros Hn. split; [done|]. apply Nat.ltb_ge in E.
      destruct neighbors as [|q [|q' l]]; [done| |cbn in E; lia].
      apply list_elem_of_singleton in Hon, Hn. congruence. }
  assert (Hne' : (0 < length valid)%nat).
  { unfold valid. destruct (1 <? length neighbors)%nat.
    - assert (other ∈ filter (fun n => awayFrom (curX c) (curY c) n)
                              neighbors) as Ho.
      { apply list_elem_of_filter. split; [|done].
        by apply Is_true_true, awayFrom_spec. }
      destruct (filter _ neighbors); [by apply elem_of_nil in Ho|cbn; lia].
    - by apply Nat.ltb_lt. }
  apply Nat.ltb_lt in Hne'. rewrite Hne'.
  destruct (valid !! _) as [next|] eqn:Hnext; [|done].
  cbn [mbind option_bind]. intros [= <-].
  apply list_elem_of_lookup_2, Hvalid in Hnext as [Hn1 Hn2].
  apply list_elem_of_filter in Hn1 as [Hn1 Hn3]. apply Is_true_true in Hn1.
  unfold carCur, carTar in *. cbn. rewrite Pos_eta. done.
Qed.


(** ** The train frame *)

Lemma Qtrunc_nonneg (v : Q) : (0 <= v)%Q -> Qtrunc v = Qfloor v.
Proof.
  intros Hv. unfold Qtrunc, Qfloor. destruct v as [a b]. unfold Qle in Hv.
  simpl in *. apply Z.quot_div_nonneg; lia.
Qed.

Lemma Qrem_range (a b : Q) :
  (0 < b)%Q -> (0 <= a)%Q -> (0 <= Qrem a b)%Q /\ (Qrem a b < b)%Q.
Proof.
  intros Hb Ha. unfold Qrem.
  assert (Hq : (0 <= a / b)%Q).
  { apply Qle_shift_div_l; [done|]. lra. }
  rewrite (Qtrunc_nonneg _ Hq).
  pose proof (Qfloor_le (a / b)) as Hlo.
  pose proof (Qlt_floor (a / b)) as Hhi.
  rewrite inject_Z_plus in Hhi. change (inject_Z 1) with 1%Q in Hhi.
  assert (Ha' : (a == (a / b) * b)%Q).
  { field. intros E. rewrite E in Hb. by apply Qlt_irrefl in Hb. }
  set (q := (a / b)%Q) in *. set (k := inject_Z (Qfloor q)) in *.
  split.
  - assert (0 <= (q - k) * b)%Q by (apply Qmult_le_0_compat; lra). lra.
  - assert (0 < (k + 1 - q) * b)%Q by (apply Qmult_lt_0_compat; lra). lra.
Qed.

Lemma Qfloor_bounds (v : Q) (lo hi : Z) :
  (inject_Z lo <= v)%Q -> (v < inject_Z hi)%Q -> lo <= Qfloor v < hi.
Proof.
  intros Hlo Hhi.
  pose proof (Qfloor_le v) as Hfl. pose proof (Qlt_floor v) as Hfu.
  split.
  - assert (lo < Qfloor v + 1); [|lia].
    rewrite Zlt_Qlt. eapply Qle_lt_trans; eauto.
  - rewrite Zlt_Qlt. eapply Qle_lt_trans; eauto.
Qed.

(** X14: with at least two rail tiles and a progress that is not negative,
    the train frame throws exactly when the progress, taken modulo twice the
    tile count, equals the tile count; otherwise it draws the train between
    a rail tile [i] and the next one (the last tile being its own next), at
    a fraction in [0, 1), and adds half a turn to the heading exactly when
    that remainder is beyond the tile count. *)
Theorem train_frame_outcome (rails : list Pos) (progress delta : Q) :
  (2 <= length rails)%nat -> (0 <= progress + delta * trainSpeed)%Q ->
  let n := Z.of_nat (length rails) in
  let p' := (progress + delta * trainSpeed)%Q in
  let raw := Qrem p' (inject_Z n * 2) in
  ((raw == inject_Z n)%Q
   /\ trainFrame true rails progress delta = Threw p')
  \/ (~ (raw == inject_Z n)%Q
      /\ exists (i : nat) (a b : Pos) (t : Q) (pose : TrainPose),
           trainFrame true rails progress delta = Ran p' pose
           /\ rails !! i = Some a
           /\ rails !! Nat.min (i + 1) (length rails - 1) = Some b
           /\ (0 <= t)%Q /\ (t < 1)%Q
           /\ trainWorld pose
              = gridToWorld
                  (lerp (inject_Z (posX a)) (inject_Z (posX b)) t)
                  (lerp (inject_Z (posY a)) (inject_Z (posY b)) t)
           /\ trainDir pose = (posX b - posX a, posY b - posY a)
           /\ trainReversed pose = Qgtb raw (inject_Z n)).
Proof.
  intros Hlen Hp n p' raw.
  assert (Hn : (2 <= inject_Z n)%Q).
  { change 2%Q with (inject_Z 2). rewrite <- Zle_Qle. lia. }
  destruct (Qrem_range p' (inject_Z n * 2)) as [Hr0 Hr1]; [lra|done|].
  fold raw in Hr0, Hr1.
  unfold trainFrame. cbn [negb orb].
  destruct (length rails <? 2)%nat eqn:E; [apply Nat.ltb_lt in E; lia|].
  fold n p'. unfold pingPong. fold raw.
  set (pos := if Qgtb raw (inject_Z n) then _ else raw).
  assert (Hpos : (0 <= pos)%Q /\ (pos <= inject_Z n)%Q
                 /\ ((pos == inject_Z n)%Q <-> (raw == inject_Z n)%Q)).
  { unfold pos. destruct (Qgtb raw (inject_Z n)) eqn:G.
    - apply Qgtb_true in G. split; [lra|]. split; [lra|].
      split; intros H; lra.
    - apply Qgtb_false in G. done. }
  destruct Hpos as (Hpos0 & Hpos1 & Hiff).
  destruct (Qeq_dec raw (inject_Z n)) as [Heq|Hne].
  - left. split; [done|]. apply Hiff in Heq.
    assert (Hidx : Qfloor pos = n) by (rewrite Heq; apply Qfloor_Z).
    rewrite Hidx. unfold lookupZ at 1.
    destruct (n <? 0) eqn:E0; [done|].
    rewrite (lookup_ge_None_2 rails (Z.to_nat n)) by lia. done.
  - right. split; [done|].
    assert (Hlt : (pos < inject_Z n)%Q).
    { apply Qle_lteq in Hpos1 as [H|H]; [done|]. by apply Hiff in H. }
    destruct (Qfloor_bounds pos 0 n) as [Hi0 Hi1]; [done|done|].
    set (idx := Qfloor pos) in *.
    destruct (lookup_lt_is_Some_2 rails (Z.to_nat idx)) as [a Ha]; [lia|].
    destruct (lookup_lt_is_Some_2 rails
                (Nat.min (Z.to_nat idx + 1) (length rails - 1)))
      as [b Hb]; [lia|].
    assert (Hla : lookupZ rails idx = Some a).
    { unfold lookupZ. destruct (Z.ltb_spec idx 0); [lia|done]. }
    assert (Hlb : lookupZ rails (Z.min (idx + 1) (n - 1)) = Some b).
    { unfold lookupZ. destruct (Z.ltb_spec (Z.min (idx + 1) (n - 1)) 0);
        [lia|].
      rewrite <- Hb. f_equal. unfold n. lia. }
    rewrite Hla, Hlb.
    exists (Z.to_nat idx), a, b, (pos - inject_Z idx)%Q. eexists.
    split; [reflexivity|]. split; [done|]. split; [done|].
    pose proof (Qfloor_le pos). pose proof (Qlt_floor pos) as Hfu.
    rewrite inject_Z_plus in Hfu. change (inject_Z 1) with 1%Q in Hfu.
    fold idx in H, Hfu.
    split; [lra|]. split; [lra|]. done.
Qed.


(** ** Pedestrians *)

Lemma pickTile_near (walkable : list Pos) (d : TileDraw) :
  (0 < length walkable)%nat -> jitterOk d ->
  exists p, pickTile walkable d = Some p
    /\ nearWalkable walkable (fst p) (snd p).
Proof.
  intros Hlen (Hx0 & Hx1 & Hy0 & Hy1). unfold pickTile.
  destruct (lookup_mod_is_Some walkable (pickIdx d) Hlen) as [t Ht].
  rewrite Ht. cbn [mbind option_bind]. eexists. split; [done|].
  exists t. split; [by eapply list_elem_of_lookup_2|]. cbn [fst snd].
  repeat split; lra.
Qed.

Lemma agentBody_target (sqrt : Q -> Q) (walkable : list Pos)
    (draw : nat -> TileDraw) (i : nat) (a : Agent) :
  (forall j, jitterOk (draw j)) ->
  nearWalkable walkable (agTX a) (agTY a) ->
  exists a' v, agentBody sqrt walkable draw i a = Some (a', v)
    /\ nearWalkable walkable (agTX a') (agTY a')
    /\ agSpeed a' = agSpeed a.
Proof.
  intros Hj Hnear. unfold agentBody.
  destruct (Qltb _ _).
  - destruct (0 <? length walkable)%nat eqn:E.
    + apply Nat.ltb_lt in E.
      destruct (pickTile_near walkable (draw i) E (Hj i)) as (p & -> & Hp).
      cbn [mbind option_bind]. by eexists _, _.
    + by eexists _, _.
  - by eexists _, _.
Qed.

(** X17: the pedestrians never throw. With a walkable tile and jitters within
    0.4, the seeding places [count] agents and aims each within 0.4 of a
    walkable tile; a frame on agents so aimed returns at once or runs to
    its end, keeps the number of agents, and leaves every target within 0.4
    of a walkable tile. *)
Theorem pedestrians_aim_at_walkable_tiles (sqrt : Q -> Q) (mounted : bool)
    (count : Z) (walkable : list Pos) (spawn : nat -> SpawnDraw)
    (draw : nat -> TileDraw) :
  0 < count -> (0 < length walkable)%nat ->
  (forall i, jitterOk (spawnAt (spawn i)) /\ jitterOk (spawnTarget (spawn i))) ->
  (forall i, jitterOk (draw i)) ->
  exists agents,
    populationEffect count walkable spawn [] = Some agents
    /\ length agents = Z.to_nat count
    /\ Forall (fun a => nearWalkable walkable (agX a) (agY a)
                        /\ nearWalkable walkable (agTX a) (agTY a)) agents
    /\ (forall agents1,
          Forall (fun a => nearWalkable walkable (agTX a) (agTY a)) agents1 ->
          populationFrame sqrt mounted count walkable agents1 draw = Skipped
          \/ exists agents' poses,
               populationFrame sqrt mounted count walkable agents1 draw
               = Ran agents' poses
               /\ length agents' = length agents1
               /\ Forall (fun a => nearWalkable walkable (agTX a) (agTY a))
                         agents').
Proof.
  intros Hc Hw Hspawn Hdraw.
  assert (Hseed : forall l : list nat, exists agents,
            mapM (fun i => seedAgent walkable (spawn i)) l = Some agents
            /\ length agents = length l
            /\ Forall (fun a => nearWalkable walkable (agX a) (agY a)
                         /\ nearWalkable walkable (agTX a) (agTY a)) agents).
  { induction l as [|i l (agents & Hm & Hl & Hall)].
    - exists []. split; [done|]. split; [done|constructor].
    - destruct (Hspawn i) as [Hj1 Hj2].
      destruct (pickTile_near walkable _ Hw Hj1) as (p & Hp & Hnp).
      destruct (pickTile_near walkable _ Hw Hj2) as (q & Hq & Hnq).
      eexists (_ :: agents). split; [|split].
      + apply mapM_Some. constructor; [|by apply mapM_Some].
        unfold seedAgent. rewrite Hp, Hq. reflexivity.
      + cbn. by rewrite Hl.
      + constructor; [|done]. by split. }
  destruct (Hseed (seq 0 (Z.to_nat count))) as (agents & Hm & Hl & Hall).
  exists agents. split; [|split; [|split]].
  - unfold populationEffect.
    destruct (Z.eqb_spec count 0); [lia|].
    destruct (Nat.eqb_spec (length walkable) 0); [lia|]. done.
  - by rewrite Hl, length_seq.
  - done.
  - clear agents Hm Hl Hall. intros agents Hall.
    unfold populationFrame. destruct (_ || _ || _); [by left|]. right.
    destruct (frameLoop_Forall
                (fun a => nearWalkable walkable (agTX a) (agTY a))
                (agentBody sqrt walkable draw) 0
                (take (Z.to_nat count) agents))
      as (l & vs & -> & Hl' & Hlen').
    + intros i a Ha.
      destruct (agentBody_target sqrt walkable draw i a Hdraw Ha)
        as (a' & v & -> & Hn & _).
      by eexists _, _.
    + by apply Forall_take.
    + eexists _, _. split; [done|]. split.
      * rewrite length_app, Hlen', <- length_app. by rewrite take_drop.
      * apply Forall_app. split; [done|]. by apply Forall_drop.
Qed.


(** ** The initial grid, the adjacency check *)

(** X8: the grid the game starts with has 25 rows of 25 tiles, 25 of them
    owned; the tile at an in-bounds [(x, y)] carries these coordinates, no
    building and no rail, is owned exactly in the square 10..14 by 10..14,
    is water exactly within one column of the river, and its price exceeds
    the random variance by 5000 to 13485. *)
Theorem initial_grid_shape (riverY : Z -> Z) (variance : Z -> Z -> Z)
    (x y : Z) :
  inBounds x y ->
  let g := createInitialGrid riverY variance in
  wfGrid g
  /\ length (filter (fun t => owned t = true) (concat g)) = 25%nat
  /\ exists t, getTile g x y = Some t
       /\ tileX t = x /\ tileY t = y
       /\ buildingType t = None_ /\ isRail t = false
       /\ (owned t = true <-> 10 <= x <= 14 /\ 10 <= y <= 14)
       /\ (isWater t = true <-> -1 <= x - riverY y <= 1)
       /\ 5000 <= landPrice t - variance x y <= 13485.
Proof.
  intros Hb. cbn zeta. split; [apply createInitialGrid_wf|].
  split; [vm_compute; reflexivity|].
  exists (initialTile riverY variance y x).
  split; [by apply createInitialGrid_lookup|].
  destruct Hb as [Hx Hy]. unfold GRID_SIZE in *.
  unfold initialTile. cbn [tileX tileY buildingType isRail owned isWater
                           landPrice].
  split; [done|]. split; [done|]. split; [done|]. split; [done|].
  change center with 12. unfold ownedRadius.
  split; [|split].
  - rewrite andb_true_iff, !Z.leb_le. lia.
  - rewrite Z.ltb_lt. lia.
  - assert (Hd : 0 <= 250000 * ((x - 12) ^ 2 + (y - 12) ^ 2)
                 <= 72000000) by nia.
    pose proof (Z.sqrt_nonneg (250000 * ((x - 12) ^ 2 + (y - 12) ^ 2))).
    pose proof (Z.sqrt_le_mono _ _ (proj2 Hd)) as Hs.
    change (Z.sqrt 72000000) with 8485 in Hs. lia.
Qed.

(** X7: on a full grid the adjacency check of the Land tool never reads
    outside the grid, and it answers yes exactly when one of the four
    orthogonal neighbours inside the grid is owned. *)
Theorem adjacency_check_is_exact (g : Grid) (x y : Z) :
  wfGrid g -> inBounds x y ->
  exists b, hasOwnedNeighbor g x y = Some b
    /\ (b = true <-> ownedNeighbor g x y).
Proof. apply hasOwnedNeighbor_wf. Qed.


(** * Instances of the further properties *)




Lemma terrain_is_immutable_witness :
  let es := [EStart; ESelectTool Rail; EClick 10 10; ESelectTool Land;
             EClick 15 12; ETick] in
  let s := stateAfter es freshCity in
  let t0 := mkTile 10 10 None_ true true false 6414 in
  (wfGrid (grid freshCity) /\ run es freshCity = Some s
   /\ getTile (grid freshCity) 10 10 = Some t0)
  /\ wfGrid (grid s)
  /\ exists t, getTile (grid s) 10 10 = Some t /\ sameTerrain t0 t.
Proof.
  assert (Hwf : wfGrid (grid freshCity)) by apply createInitialGrid_wf.
  assert (Hrun : run [EStart; ESelectTool Rail; EClick 10 10;
                      ESelectTool Land; EClick 15 12; ETick] freshCity
                 = Some (stateAfter [EStart; ESelectTool Rail; EClick 10 10;
                                     ESelectTool Land; EClick 15 12; ETick]
                                    freshCity))
    by (vm_compute; reflexivity).
  assert (Ht : getTile (grid freshCity) 10 10
               = Some (mkTile 10 10 None_ true true false 6414))
    by (vm_compute; reflexivity).
  cbv zeta. split; [splits|]. exact (terrain_is_immutable _ _ _ 10 10 _ Hwf Hrun Ht).
Defined.

Lemma buildings_respect_terrain_witness :
  let es := [EStart; ESelectTool Rail; EClick 10 10; ESelectTool Bridge;
             EClick 10 10] in
  let s := stateAfter es freshCity in
  let t := mkTile 10 10 Bridge true true true 6414 in
  (run es (initialState sineRiver noVariance) = Some s
   /\ getTile (grid s) 10 10 = Some t)
  /\ builtShape t.
Proof.
  assert (Hrun : run [EStart; ESelectTool Rail; EClick 10 10;
                      ESelectTool Bridge; EClick 10 10]
                     (initialState sineRiver noVariance)
                 = Some (stateAfter [EStart; ESelectTool Rail; EClick 10 10;
                                     ESelectTool Bridge; EClick 10 10]
                                    freshCity))
    by (vm_compute; reflexivity).
  assert (Ht : getTile (grid (stateAfter [EStart; ESelectTool Rail;
                                          EClick 10 10; ESelectTool Bridge;
                                          EClick 10 10] freshCity)) 10 10
               = Some (mkTile 10 10 Bridge true true true 6414))
    by (vm_compute; reflexivity).
  cbv zeta. split; [splits|].
  exact (buildings_respect_terrain _ _ _ _ 10 10 _ Hrun Ht).
Defined.

Lemma water_buildings_are_permanent_witness :
  let es := [ESelectTool None_; EClick 10 10; ESelectTool Land;
             EClick 10 10; ETick] in
  let s := stateAfter es waterRailCity in
  let t0 := mkTile 10 10 Rail true true true 6414 in
  (run es waterRailCity = Some s
   /\ getTile (grid waterRailCity) 10 10 = Some t0
   /\ isWater t0 = true /\ buildingType t0 <> None_)
  /\ exists t, getTile (grid s) 10 10 = Some t
       /\ isWater t = true /\ buildingType t <> None_.
Proof.
  assert (Hrun : run [ESelectTool None_; EClick 10 10; ESelectTool Land;
                      EClick 10 10; ETick] waterRailCity
                 = Some (stateAfter [ESelectTool None_; EClick 10 10;
                                     ESelectTool Land; EClick 10 10; ETick]
                                    waterRailCity))
    by (vm_compute; reflexivity).
  assert (Ht : getTile (grid waterRailCity) 10 10
               = Some (mkTile 10 10 Rail true true true 6414))
    by (vm_compute; reflexivity).
  cbv zeta. split; [splits|].
  by apply (water_buildings_are_permanent _ _ _ 10 10 _ Hrun Ht).
Defined.

Lemma click_touches_one_tile_witness :
  let s := startedCity in
  let s' := stateAfter [EClick 12 12] startedCity in
  (handleTileClick 12 12 s = Some s' /\ inBounds 13 12
   /\ (13, 12) <> (12, 12))
  /\ getTile (grid s') 13 12 = getTile (grid s) 13 12.
Proof.
  assert (H : handleTileClick 12 12 startedCity
              = Some (stateAfter [EClick 12 12] startedCity))
    by (vm_compute; reflexivity).
  assert (Hb : inBounds 13 12) by (vm_compute; repeat split; congruence).
  assert (Hne : (13, 12) <> (12, 12)) by discriminate.
  cbv zeta. split; [splits|]. exact (click_touches_one_tile 12 12 13 12 _ _ H Hb Hne).
Defined.


Lemma news_feed_is_bounded_witness :
  let es := EStart :: replicate 20 (EClick 0 0) in
  let s := stateAfter es freshCity in
  let item := mkNews MsgWelcome positive in
  run es (initialState sineRiver noVariance) = Some s
  /\ (length (newsFeed s) <= 13)%nat
  /\ newsFeed (addNewsItem item s) `suffix_of` newsFeed s ++ [item]
  /\ last (newsFeed (addNewsItem item s)) = Some item
  /\ length (newsFeed (addNewsItem item s))
     = Nat.min (length (newsFeed s) + 1) 13.
Proof.
  assert (Hrun : run (EStart :: replicate 20 (EClick 0 0))
                     (initialState sineRiver noVariance)
                 = Some (stateAfter (EStart :: replicate 20 (EClick 0 0))
                                    freshCity))
    by (vm_compute; reflexivity).
  cbv zeta. split; [splits|]. exact (news_feed_is_bounded _ _ _ _ _ Hrun).
Defined.

Lemma nothing_happens_before_start_witness :
  let es := [ESelectTool Land; EClick 15 12; ETick; EDayTimer] in
  (gameStarted freshCity = false /\ EStart ∉ es)
  /\ run es freshCity = Some freshCity.
Proof.
  assert (Hnot : EStart ∉ [ESelectTool Land; EClick 15 12; ETick;
                           EDayTimer]).
  { intros H. repeat (apply elem_of_cons in H as [H|H]; [discriminate|]).
    by apply elem_of_nil in H. }
  cbv zeta. split; [splits|]. by apply nothing_happens_before_start.
Defined.

Lemma cars_stay_on_roads_witness :
  let g := grid roadCity in
  let startSpeed := fun _ : nat => (3 # 100)%Q in
  ((2 <= length (roadTiles g))%nat
   /\ forall i, (1 # 100 <= startSpeed i)%Q /\ (startSpeed i <= 3 # 100)%Q)
  /\ exists cars0 cars,
       trafficEffect (roadTiles g) (fun i => i) startSpeed [] = Some cars0
       /\ trafficFrames intSqrt true (roadTiles g)
                        (fun k i => (k + i)%nat) 0 50 cars0 = Some cars
       /\ length cars = Nat.min (length (roadTiles g)) 30.
Proof.
  assert (Hlen : (2 <= length (roadTiles (grid roadCity)))%nat).
  { replace (length (roadTiles (grid roadCity))) with 2%nat
      by (vm_compute; reflexivity). lia. }
  assert (Hs : forall i : nat,
             (1 # 100 <= 3 # 100)%Q /\ (3 # 100 <= 3 # 100)%Q)
    by (intros _; split; lra).
  cbv zeta. split; [splits|].
  destruct (cars_stay_on_roads intSqrt (grid roadCity) (fun i => i)
              (fun _ => (3 # 100)%Q) (fun k i => (k + i)%nat) 50 Hlen Hs)
    as (cars0 & cars & H1 & H2 & H3 & _).
  exists cars0, cars. split; [exact H1|]. split; [exact H2|exact H3].
Defined.

Lemma car_avoids_reversal_witness :
  let c' := mkCar 13 12 14 12 0 (3 # 100) in
  ((1 <= progress arrivingCar + speed arrivingCar)%Q
   /\ mkPos 14 12 ∈ roads3
   /\ isNeighbor (tarX arrivingCar) (tarY arrivingCar) (mkPos 14 12) = true
   /\ mkPos 14 12 <> carCur arrivingCar
   /\ stepCar roads3 arrivingCar 0 = Some c')
  /\ carCur c' = carTar arrivingCar /\ carTar c' <> carCur arrivingCar
  /\ carTar c' ∈ roads3
  /\ isNeighbor (tarX arrivingCar) (tarY arrivingCar) (carTar c') = true.
Proof.
  assert (Hp : (1 <= progress arrivingCar + speed arrivingCar)%Q).
  { cbn. lra. }
  assert (Hin : mkPos 14 12 ∈ roads3).
  { unfold roads3. rewrite !elem_of_cons. auto. }
  assert (Hne : mkPos 14 12 <> carCur arrivingCar) by discriminate.
  assert (Hstep : stepCar roads3 arrivingCar 0
                  = Some (mkCar 13 12 14 12 0 (3 # 100)))
    by (vm_compute; reflexivity).
  cbv zeta. split; [splits|].
  exact (car_avoids_reversal roads3 arrivingCar _ 0 (mkPos 14 12) Hp Hin
           eq_refl Hne Hstep).
Defined.

Lemma train_frame_outcome_witness :
  let rails := railTiles (grid railCity) in
  ((2 <= length rails)%nat /\ (0 <= 0 + (1 # 2) * trainSpeed)%Q)
  /\ (((Qrem (0 + (1 # 2) * trainSpeed)
             (inject_Z (Z.of_nat (length rails)) * 2)
        == inject_Z (Z.of_nat (length rails)))%Q
       /\ trainFrame true rails 0 (1 # 2) = Threw (0 + (1 # 2) * trainSpeed)%Q)
      \/ ~ (Qrem (0 + (1 # 2) * trainSpeed)
                 (inject_Z (Z.of_nat (length rails)) * 2)
            == inject_Z (Z.of_nat (length rails)))%Q).
Proof.
  assert (Hlen : (2 <= length (railTiles (grid railCity)))%nat).
  { replace (length (railTiles (grid railCity))) with 3%nat
      by (vm_compute; reflexivity). lia. }
  assert (Hp : (0 <= 0 + (1 # 2) * trainSpeed)%Q).
  { unfold trainSpeed. lra. }
  cbv zeta. split; [splits|].
  destruct (train_frame_outcome (railTiles (grid railCity)) 0 (1 # 2) Hlen Hp)
    as [H|[H _]]; [by left|by right].
Defined.

Lemma pedestrians_aim_at_walkable_tiles_witness :
  let walkable := walkableTiles (grid denseCity) in
  (0 < 42 /\ (0 < length walkable)%nat
   /\ (forall i : nat, jitterOk (spawnAt plainSpawn)
                       /\ jitterOk (spawnTarget plainSpawn))
   /\ (forall i : nat, jitterOk noJitter))
  /\ exists agents,
       populationEffect 42 walkable (fun _ => plainSpawn) [] = Some agents
       /\ length agents = Z.to_nat 42.
Proof.
  assert (Hw : (0 < length (walkableTiles (grid denseCity)))%nat).
  { replace (length (walkableTiles (grid denseCity))) with 1%nat
      by (vm_compute; reflexivity). lia. }
  assert (Hj : jitterOk noJitter).
  { unfold jitterOk. cbn. repeat split; lra. }
  assert (Hc : 0 < 42) by lia.
  cbv zeta. split.
  { split; [exact Hc|]. split; [exact Hw|].
    split; [exact (fun _ => conj Hj Hj)|exact (fun _ => Hj)]. }
  destruct (pedestrians_aim_at_walkable_tiles intSqrt true 42
              (walkableTiles (grid denseCity)) (fun _ => plainSpawn)
              (fun _ => noJitter) Hc Hw (fun _ => conj Hj Hj) (fun _ => Hj))
    as (agents & H1 & H2 & _).
  exists agents. split; [exact H1|exact H2].
Defined.

Lemma initial_grid_shape_witness :
  inBounds 10 10
  /\ let g := createInitialGrid sineRiver noVariance in
     wfGrid g
     /\ length (filter (fun t => owned t = true) (concat g)) = 25%nat
     /\ exists t, getTile g 10 10 = Some t
          /\ tileX t = 10 /\ tileY t = 10
          /\ buildingType t = None_ /\ isRail t = false
          /\ (owned t = true <-> 10 <= 10 <= 14 /\ 10 <= 10 <= 14)
          /\ (isWater t = true <-> -1 <= 10 - sineRiver 10 <= 1)
          /\ 5000 <= landPrice t - noVariance 10 10 <= 13485.
Proof.
  assert (Hb : inBounds 10 10) by (vm_compute; repeat split; congruence).
  cbv zeta. split; [splits|]. exact (initial_grid_shape sineRiver noVariance 10 10 Hb).
Defined.

Lemma adjacency_check_is_exact_witness :
  (wfGrid (grid startedCity) /\ inBounds 15 12)
  /\ exists b, hasOwnedNeighbor (grid startedCity) 15 12 = Some b
       /\ (b = true <-> ownedNeighbor (grid startedCity) 15 12).
Proof.
  assert (Hwf : wfGrid (grid startedCity)) by apply createInitialGrid_wf.
  assert (Hb : inBounds 15 12) by (vm_compute; repeat split; congruence).
  cbv zeta. split; [splits|]. by apply adjacency_check_is_exact.
Defined.

